(** * libsimba_eth.workflow: the resumable deployment workflow engine

    A shallow embedding of [src/libsimba_eth/workflow.py]: the plan model
    and its validators, the dependency resolver, the four action handlers
    and the [deploy] driver of [Executor].

    Python objects that the engine mutates in place ([Action]s) live in a
    store indexed by references; [Workflow.actions] and
    [Workflow.completed] hold references, so that an action reachable
    twice is one object.  [Contract] records, dictionaries and strings are
    never mutated by the engine and are modelled as values.  A Python
    exception is the [Raise] outcome of the [Result] type. *)

From Stdlib Require Import ZArith.
From stdpp Require Import base option list strings pretty gmap.

Local Open Scope string_scope.
Local Open Scope list_scope.

(** ** Exceptions and results *)

Inductive PyExn : Type :=
| AttributeError              (* attribute access on [None] or a value without it *)
| TypeError                   (* item assignment on [None], unhashable key, ... *)
| ValueError (msg : string)   (* raised by the validators *)
| ExternalError (msg : string)(* raised by a collaborator (file system, web3, platform) *)
| DanglingRef.                (* a reference outside the store; no Python state has one *)

Inductive Result (A : Type) : Type :=
| Ok (a : A)
| Raise (e : PyExn).
Arguments Ok {A} a.
Arguments Raise {A} e.

(** ** Python values ([Any]) and dictionaries

    Dictionary keys are [str] or [None]; dictionaries keep insertion
    order, as Python's do. *)

#[warnings="-register-all"]
Inductive PyVal : Type :=
| VNone
| VBool (b : bool)
| VInt (z : Z)
| VStr (s : string)
| VList (l : list PyVal)
| VDict (d : list (option string * PyVal)).

Abbreviation PyDict := (list (option string * PyVal)).

(** [d.get(k)] *)
Fixpoint dict_get {V : Type} (k : option string) (d : list (option string * V)) : option V :=
  match d with
  | [] => None
  | (k', v) :: d' => if decide (k' = k) then Some v else dict_get k d'
  end.

(** [d[k] = v] *)
Fixpoint dict_set {V : Type} (k : option string) (v : V) (d : list (option string * V))
  : list (option string * V) :=
  match d with
  | [] => [(k, v)]
  | (k', v') :: d' => if decide (k' = k) then (k, v) :: d' else (k', v') :: dict_set k v d'
  end.

(** An [Optional[str]] as a Python value. *)
Definition py_of_str (o : option string) : PyVal :=
  match o with Some s => VStr s | None => VNone end.

(** Truthiness of an [Optional[str]]: [None] and the empty string are falsy. *)
Definition truthy_str (o : option string) : bool :=
  match o with
  | Some s => negb (String.eqb s "")
  | None => false
  end.

(** Truthiness of an [Optional[List]]: [None] and the empty list are falsy. *)
Definition truthy_list {A : Type} (o : option (list A)) : bool :=
  match o with
  | Some (_ :: _) => true
  | _ => false
  end.

(** ** The plan model *)

Inductive DependencyType : Type := LIBRARY | CONSTRUCTOR | CONTRACT | IMPL.

Inductive ActionType : Type :=
  DEPLOY_LIBRARY | DEPLOY_CONTRACT | METHOD_CALL | DEPLOY_PROXY.

Inductive ActionState : Type :=
| INITED
| COMPILED
| COMPLETED
| FAILED_COMPILE
| FAILED_COMPLETE
| FAILED_METHOD_CALL
| FAILED_SET_PROXY
| FAILED_DEPENDENCIES
| INVALID_STATE.

#[global] Instance DependencyType_eq_dec : EqDecision DependencyType.
Proof. solve_decision. Defined.
#[global] Instance ActionType_eq_dec : EqDecision ActionType.
Proof. solve_decision. Defined.
#[global] Instance ActionState_eq_dec : EqDecision ActionState.
Proof. solve_decision. Defined.

(** The value of a [str]-mixin enum member. *)
Definition ActionType_value (t : ActionType) : string :=
  match t with
  | DEPLOY_LIBRARY => "DEPLOY_LIBRARY"
  | DEPLOY_CONTRACT => "DEPLOY_CONTRACT"
  | METHOD_CALL => "METHOD_CALL"
  | DEPLOY_PROXY => "DEPLOY_PROXY"
  end.

Module Dependency.
Record t : Type := mk {
  dependency_type : DependencyType;
  parent : string;
  target_arg : option string;
  method_name : option string;
  method_args : option PyDict
}.
End Dependency.

Module Contract.
Record t : Type := mk {
  id : option string;
  address : option string;
  api_name : option string;
  design_id : option string;
  abi : option (list PyVal);
  metadata : option PyDict
}.
End Contract.

Module Action.
Record t : Type := mk {
  action_type : ActionType;
  contract_name : option string;
  code : option string;
  dependencies : option (list Dependency.t);
  api_name : option string;
  args : option PyDict;
  action_state : option ActionState;
  contract : option Contract.t;
  impl_contract : option Contract.t;
  encode : option bool;
  error_message : option string;
  method_name : option string;
  libraries : option PyDict
}.

(** Attribute assignment [action.f = v]. *)
Definition set_contract_name v (a : t) : t :=
  mk (action_type a) v (code a) (dependencies a) (api_name a) (args a)
     (action_state a) (contract a) (impl_contract a) (encode a)
     (error_message a) (method_name a) (libraries a).
Definition set_code v (a : t) : t :=
  mk (action_type a) (contract_name a) v (dependencies a) (api_name a) (args a)
     (action_state a) (contract a) (impl_contract a) (encode a)
     (error_message a) (method_name a) (libraries a).
Definition set_args v (a : t) : t :=
  mk (action_type a) (contract_name a) (code a) (dependencies a) (api_name a) v
     (action_state a) (contract a) (impl_contract a) (encode a)
     (error_message a) (method_name a) (libraries a).
Definition set_action_state v (a : t) : t :=
  mk (action_type a) (contract_name a) (code a) (dependencies a) (api_name a) (args a)
     v (contract a) (impl_contract a) (encode a)
     (error_message a) (method_name a) (libraries a).
Definition set_contract v (a : t) : t :=
  mk (action_type a) (contract_name a) (code a) (dependencies a) (api_name a) (args a)
     (action_state a) v (impl_contract a) (encode a)
     (error_message a) (method_name a) (libraries a).
Definition set_impl_contract v (a : t) : t :=
  mk (action_type a) (contract_name a) (code a) (dependencies a) (api_name a) (args a)
     (action_state a) (contract a) v (encode a)
     (error_message a) (method_name a) (libraries a).
Definition set_encode v (a : t) : t :=
  mk (action_type a) (contract_name a) (code a) (dependencies a) (api_name a) (args a)
     (action_state a) (contract a) (impl_contract a) v
     (error_message a) (method_name a) (libraries a).
Definition set_error_message v (a : t) : t :=
  mk (action_type a) (contract_name a) (code a) (dependencies a) (api_name a) (args a)
     (action_state a) (contract a) (impl_contract a) (encode a)
     v (method_name a) (libraries a).
Definition set_libraries v (a : t) : t :=
  mk (action_type a) (contract_name a) (code a) (dependencies a) (api_name a) (args a)
     (action_state a) (contract a) (impl_contract a) (encode a)
     (error_message a) (method_name a) v.
End Action.

(** References to [Action] objects. *)
Definition loc : Type := nat.

Module Workflow.
Record t : Type := mk {
  app_name : string;
  org : string;
  blockchain : string;
  actions : list loc;
  storage : option string;
  completed : gmap (option string) loc
}.

Definition set_actions v (w : t) : t :=
  mk (app_name w) (org w) (blockchain w) v (storage w) (completed w).
Definition set_completed v (w : t) : t :=
  mk (app_name w) (org w) (blockchain w) (actions w) (storage w) v.
End Workflow.

(** ** A state-and-exception monad

    [M S A] is a computation over a state [S] that returns an [A] or
    raises.  The state reached when an exception is raised is not
    tracked: no handler of this module catches exceptions. *)

Definition M (S A : Type) : Type := S → Result (A * S).

#[global] Instance M_mret (S : Type) : MRet (M S) :=
  λ A (a : A) s, Ok (a, s).

#[global] Instance M_bind (S : Type) : MBind (M S) :=
  λ A B (k : A → M S B) (m : M S A) s,
    match m s with
    | Ok (a, s') => k a s'
    | Raise e => Raise e
    end.

Definition raise {S A : Type} (e : PyExn) : M S A := λ _, Raise e.

Definition get {S : Type} : M S S := λ s, Ok (s, s).

Definition modify {S : Type} (f : S → S) : M S unit := λ s, Ok (tt, f s).

(** Run a computation on a component of the state. *)
Definition zoom {S T A : Type} (proj : S → T) (upd : T → S → S) (m : M T A) : M S A :=
  fun s => match m (proj s) with
           | Ok (a, t) => Ok (a, upd t s)
           | Raise e => Raise e
           end.

(** An outcome computed without touching the state. *)
Definition lift_result {S A : Type} (r : Result A) : M S A :=
  fun s => match r with Ok a => Ok (a, s) | Raise e => Raise e end.

(** [o.attr] where [o] may be [None]. *)
Definition attr_of {S A : Type} (o : option A) : M S A :=
  match o with
  | Some x => mret x
  | None => raise AttributeError
  end.

(** ** The Executor capability

    The five abstract methods of [Executor].  Each returns the Go-style
    pair (value, error); an implementation may keep state of its own
    ([E]) and may raise.  It is given the values of its arguments: an
    implementation that changes a [Contract] it was passed is modelled by
    the contract it returns. *)

Class Executor (E : Type) : Type := {
  deploy_library :
    ∀ (org : string) (lib_name code : option string) (blockchain app_name : string)
      (encode : option bool), M E (option Contract.t * option string);
  compile_contract :
    ∀ (name code target_contract : option string) (libraries : option PyDict)
      (encode : option bool), M E (option Contract.t * option string);
  deploy_contract :
    ∀ (contract : option Contract.t) (api_name : option string) (blockchain : string)
      (storage : option string) (args : option PyDict) (app_name : string),
      M E (option Contract.t * option string);
  submit_transaction :
    ∀ (api_name method : option string) (args : option PyDict),
      M E (option string * option string);
  set_proxy :
    ∀ (workflow : Workflow.t) (proxy_contract impl_contract : option Contract.t),
      M E (option string * option string)
}.

(** The calls made on the Executor, in the order they are made. *)
Inductive Call : Type :=
| CallDeployLibrary (org : string) (lib_name code : option string)
    (blockchain app_name : string) (encode : option bool)
| CallCompileContract (name code target_contract : option string)
    (libraries : option PyDict) (encode : option bool)
| CallDeployContract (contract : option Contract.t) (api_name : option string)
    (blockchain : string) (storage : option string) (args : option PyDict)
    (app_name : string)
| CallSubmitTransaction (api_name method : option string) (args : option PyDict)
| CallSetProxy (workflow : Workflow.t) (proxy_contract impl_contract : option Contract.t).

Definition is_compile_call (c : Call) : bool :=
  match c with CallCompileContract _ _ _ _ _ => true | _ => false end.

(** The Executor's own state together with the log of calls made on it. *)
Record World (E : Type) : Type := mkWorld {
  executor : E;
  calls : list Call
}.
Arguments mkWorld {E} executor calls.
Arguments executor {E} w.
Arguments calls {E} w.

Section Handlers.
Context {E : Type} {exe : Executor E}.

(** [await self.op(...)]: the call is logged, then made. *)
Definition invoke {A : Type} (c : Call) (op : M E A) : M (World E) A :=
  modify (fun w => mkWorld (executor w) (calls w ++ [c])) ;;
  zoom executor (fun e w => mkWorld e (calls w)) op.

Definition handle_methodcall (action : Action.t) (workflow : Workflow.t)
  : M (World E) (Action.t * bool) :=
  contract ← attr_of (Action.contract action);
  '(txn_id, err) ←
    invoke (CallSubmitTransaction (Contract.api_name contract)
              (Action.method_name action) (Action.args action))
           (submit_transaction (Contract.api_name contract)
              (Action.method_name action) (Action.args action));
  if truthy_str err then
    let action := Action.set_action_state (Some FAILED_METHOD_CALL) action in
    let action := Action.set_error_message err action in
    mret (action, false)
  else
    let action := Action.set_action_state (Some COMPLETED) action in
    let action := Action.set_error_message None action in
    mret (action, true).

Definition handle_deploy_library (action : Action.t) (workflow : Workflow.t)
  : M (World E) (Action.t * bool) :=
  let contract := Action.contract action in
  let action :=
    match contract with
    | Some _ =>
        Action.set_error_message (Some "Contract already exists")
          (Action.set_action_state (Some INVALID_STATE) action)
    | None => action
    end in
  '(contract, err) ←
    invoke (CallDeployLibrary (Workflow.org workflow) (Action.contract_name action)
              (Action.code action) (Workflow.blockchain workflow)
              (Workflow.app_name workflow) (Action.encode action))
           (deploy_library (Workflow.org workflow) (Action.contract_name action)
              (Action.code action) (Workflow.blockchain workflow)
              (Workflow.app_name workflow) (Action.encode action));
  if truthy_str err then
    let action := Action.set_action_state (Some FAILED_COMPLETE) action in
    let action := Action.set_error_message err action in
    mret (action, false)
  else
    let action := Action.set_contract contract action in
    let action := Action.set_action_state (Some COMPLETED) action in
    let action := Action.set_error_message None action in
    mret (action, true).

(** The guard of the compile phase:
    [not contract or not contract.design_id
     or action.action_state == ActionState.FAILED_COMPILE]. *)
Definition needs_compile (action : Action.t) : bool :=
  match Action.contract action with
  | None => true
  | Some contract =>
      negb (truthy_str (Contract.design_id contract))
      || bool_decide (Action.action_state action = Some FAILED_COMPILE)
  end.

(** The deploy phase of [handle_deploy_contract], entered with the local
    variable [contract]. *)
Definition deploy_phase (contract : option Contract.t) (action : Action.t)
    (workflow : Workflow.t) : M (World E) (Action.t * bool) :=
  '(contract, err) ←
    invoke (CallDeployContract contract (Action.api_name action)
              (Workflow.blockchain workflow) (Workflow.storage workflow)
              (Action.args action) (Workflow.app_name workflow))
           (deploy_contract contract (Action.api_name action)
              (Workflow.blockchain workflow) (Workflow.storage workflow)
              (Action.args action) (Workflow.app_name workflow));
  if truthy_str err then
    let action := Action.set_action_state (Some FAILED_COMPLETE) action in
    let action := Action.set_error_message err action in
    let action := Action.set_error_message None action in
    mret (action, false)
  else
    let action := Action.set_contract contract action in
    let action := Action.set_action_state (Some COMPLETED) action in
    mret (action, true).

Definition handle_deploy_contract (action : Action.t) (workflow : Workflow.t)
  : M (World E) (Action.t * bool) :=
  let contract := Action.contract action in
  if needs_compile action then
    '(contract, err) ←
      invoke (CallCompileContract (Action.contract_name action) (Action.code action)
                (Action.contract_name action) (Action.libraries action)
                (Action.encode action))
             (compile_contract (Action.contract_name action) (Action.code action)
                (Action.contract_name action) (Action.libraries action)
                (Action.encode action));
    if truthy_str err then
      let action := Action.set_action_state (Some FAILED_COMPILE) action in
      let action := Action.set_error_message err action in
      mret (action, false)
    else
      let action := Action.set_contract contract action in
      let action := Action.set_action_state (Some COMPILED) action in
      let action := Action.set_error_message None action in
      deploy_phase contract action workflow
  else
    deploy_phase contract action workflow.

(** The set-proxy phase of [handle_deploy_proxy]. *)
Definition set_proxy_phase (action : Action.t) (workflow : Workflow.t)
  : M (World E) (Action.t * bool) :=
  let contract := Action.contract action in
  '(msg, err) ←
    invoke (CallSetProxy workflow contract (Action.impl_contract action))
           (set_proxy workflow contract (Action.impl_contract action));
  if truthy_str err then
    let action := Action.set_action_state (Some FAILED_SET_PROXY) action in
    let action := Action.set_error_message err action in
    mret (action, false)
  else
    mret (action, true).

Definition handle_deploy_proxy (action : Action.t) (workflow : Workflow.t)
  : M (World E) (Action.t * bool) :=
  if negb (bool_decide (Action.action_state action = Some FAILED_SET_PROXY)) then
    '(action, carry_on) ← handle_deploy_contract action workflow;
    if negb carry_on then mret (action, false)
    else set_proxy_phase action workflow
  else set_proxy_phase action workflow.

End Handlers.

(** ** External collaborators of the resolver

    [load_proxy_encoded] reads the proxy source from a resource file;
    [w3.eth.contract(abi=...)] and [encodeABI] belong to web3.  [C] is the
    type of web3's contract objects. *)

Class Web3 (C : Type) : Type := {
  load_proxy_encoded : Result string;
  eth_contract : option (list PyVal) → Result C;
  encodeABI : C → option string → list PyVal → Result string
}.

(** [v.get(k, default)] on a value of type [Any]: only dictionaries have
    [get]. *)
Definition py_get (v : PyVal) (k : option string) (dflt : PyVal) : Result PyVal :=
  match v with
  | VDict d => Ok (default dflt (dict_get k d))
  | _ => Raise AttributeError
  end.

(** The characters of a string, each as a one-character string. *)
Fixpoint chars (s : string) : list PyVal :=
  match s with
  | EmptyString => []
  | String c s' => VStr (String c EmptyString) :: chars s'
  end.

(** [for x in v]: the elements of a list, the keys of a dictionary, the
    characters of a string. *)
Definition py_iter (v : PyVal) : Result (list PyVal) :=
  match v with
  | VList l => Ok l
  | VDict d => Ok (map (λ kv, py_of_str (fst kv)) d)
  | VStr s => Ok (chars s)
  | _ => Raise TypeError
  end.

(** [args.get(name)] where [name] is any value: lists and dictionaries are
    not hashable; keys other than strings and [None] are not found. *)
Definition args_get (args : option PyDict) (name : PyVal) : Result PyVal :=
  match args with
  | None => Raise AttributeError
  | Some d =>
      match name with
      | VStr s => Ok (default VNone (dict_get (Some s) d))
      | VNone => Ok (default VNone (dict_get None d))
      | VList _ | VDict _ => Raise TypeError
      | _ => Ok VNone
      end
  end.

Definition result_bind {A B : Type} (r : Result A) (k : A → Result B) : Result B :=
  match r with Ok a => k a | Raise e => Raise e end.

(** ** The store

    The Python state the driver works on: the [Action] objects, the
    [Workflow] object and the Executor. *)

Record State (E : Type) : Type := mkState {
  heap : gmap loc Action.t;
  workflow : Workflow.t;
  world : World E
}.
Arguments mkState {E} heap workflow world.
Arguments heap {E} s.
Arguments workflow {E} s.
Arguments world {E} s.

Definition set_heap {E : Type} (h : gmap loc Action.t) (s : State E) : State E :=
  mkState h (workflow s) (world s).
Definition set_workflow {E : Type} (w : Workflow.t) (s : State E) : State E :=
  mkState (heap s) w (world s).
Definition set_world {E : Type} (w : World E) (s : State E) : State E :=
  mkState (heap s) (workflow s) w.

(** Dereference [a]. *)
Definition read {E : Type} (a : loc) : M (State E) Action.t :=
  λ s, match heap s !! a with
       | Some action => Ok (action, s)
       | None => Raise DanglingRef
       end.

(** Mutate the object at [a]. *)
Definition update {E : Type} (a : loc) (f : Action.t → Action.t) : M (State E) unit :=
  action ← read a;
  modify (λ s, set_heap (<[a := f action]> (heap s)) s).

Section Resolver.
Context {C : Type} {web3 : Web3 C}.

(** The loop of [encode_calldata] that projects [args] on the
    parameter names. *)
Fixpoint project_args (args : option PyDict) (params : list PyVal)
  : Result (list PyVal) :=
  match params with
  | [] => Ok []
  | param :: rest =>
      result_bind (py_get param (Some "name") VNone) (λ name,
      result_bind (args_get args name) (λ v,
      result_bind (project_args args rest) (λ vs,
      Ok (v :: vs))))
  end.

Definition encode_calldata (deployed_contract : Contract.t)
    (method_name : option string) (args : option PyDict) : Result PyDict :=
  result_bind (eth_contract (Contract.abi deployed_contract)) (λ c,
  match Contract.metadata deployed_contract with
  | None => Raise AttributeError
  | Some metadata =>
      result_bind (py_get (VDict metadata) (Some "contract") (VDict [])) (λ v1,
      result_bind (py_get v1 (Some "methods") (VDict [])) (λ v2,
      result_bind (py_get v2 method_name (VDict [])) (λ v3,
      result_bind (py_get v3 (Some "params") (VList [])) (λ params,
      result_bind (py_iter params) (λ params,
      result_bind (project_args args params) (λ arg_list,
      result_bind (encodeABI c method_name arg_list) (λ encoded,
      Ok [(Some "_logic", py_of_str (Contract.address deployed_contract));
          (Some "_data", VStr encoded)])))))))
  end).

(** *** The dependency resolver *)

Context {E : Type}.

Definition unresolved_message (parent : string) : string :=
  "Dependency on contract " +:+ parent +:+ " cannot be resolved".

(** The body of the loop of [dependencies] for one dependency: [inl msg]
    is the early [return False, msg]; [inr libs] continues the loop with
    the local dictionary [libs]. *)
Definition resolve_dep (a : loc) (dep : Dependency.t) (libs : PyDict)
  : M (State E) (string + PyDict) :=
  let dep_type := Dependency.dependency_type dep in
  let parent := Dependency.parent dep in
  s ← get;
  match Workflow.completed (workflow s) !! Some parent with
  | None => mret (inl (unresolved_message parent))
  | Some p =>
      prev_deployment ← read p;
      match Action.contract prev_deployment with
      | None => mret (inl (unresolved_message parent))
      | Some prev_contract =>
          libs ←
            match dep_type with
            | LIBRARY =>
                mret (dict_set (Some parent)
                        (py_of_str (Contract.address prev_contract)) libs)
            | CONSTRUCTOR =>
                action ← read a;
                match Action.args action with
                | None => raise TypeError
                | Some args =>
                    update a (Action.set_args
                      (Some (dict_set (Dependency.target_arg dep)
                               (py_of_str (Contract.address prev_contract)) args)));;
                    mret libs
                end
            | CONTRACT =>
                update a (Action.set_contract (Some prev_contract));;
                mret libs
            | IMPL =>
                update a (Action.set_impl_contract (Some prev_contract));;
                code ← lift_result load_proxy_encoded;
                update a (Action.set_code (Some code));;
                update a (Action.set_encode (Some false));;
                update a (Action.set_contract_name (Some "SIMBAProxy"));;
                action ← read a;
                impl_contract ← attr_of (Action.impl_contract action);
                args ← lift_result
                  (encode_calldata impl_contract (Dependency.method_name dep)
                     (Dependency.method_args dep));
                update a (Action.set_args (Some args));;
                mret libs
            end;
          update a (Action.set_libraries (Some libs));;
          mret (inr libs)
      end
  end.

Fixpoint dependencies_loop (a : loc) (deps : list Dependency.t) (libs : PyDict)
  : M (State E) (bool * option string) :=
  match deps with
  | [] => mret (true, None)
  | dep :: rest =>
      r ← resolve_dep a dep libs;
      match r with
      | inl msg => mret (false, Some msg)
      | inr libs => dependencies_loop a rest libs
      end
  end.

Definition dependencies (a : loc) : M (State E) (bool * option string) :=
  action ← read a;
  if bool_decide (Some COMPLETED = Action.action_state action) then
    mret (false, None)
  else
    dependencies_loop a (default [] (Action.dependencies action)) [].

End Resolver.

(** ** The driver *)

(** How one iteration of the loop of [deploy] ends: [break], [continue],
    or falling through to [count += 1] and the promotion. *)
Inductive Flow : Type := Break | Continue | Promoted.

Section Driver.
Context {C : Type} {web3 : Web3 C} {E : Type} {exe : Executor E}.

(** [action, carry_on = await self.handle_x(action=action, workflow=workflow)]:
    the handler mutates the object at [a] and returns it. *)
Definition run_handler
    (handle : Action.t → Workflow.t → M (World E) (Action.t * bool))
    (a : loc) : M (State E) bool :=
  action ← read a;
  s ← get;
  '(action, carry_on) ← zoom world set_world (handle action (workflow s));
  update a (λ _, action);;
  mret carry_on.

Definition dispatch (a : loc) : M (State E) bool :=
  action ← read a;
  match Action.action_type action with
  | DEPLOY_LIBRARY => run_handler handle_deploy_library a
  | METHOD_CALL => run_handler handle_methodcall a
  | DEPLOY_CONTRACT => run_handler handle_deploy_contract a
  | DEPLOY_PROXY => run_handler handle_deploy_proxy a
  end.

(** [workflow.completed[action.contract_name] = action] *)
Definition promote (a : loc) : M (State E) unit :=
  action ← read a;
  modify (λ s, set_workflow
                 (Workflow.set_completed
                    (<[Action.contract_name action := a]>
                       (Workflow.completed (workflow s)))
                    (workflow s)) s).

(** The body of the loop of [deploy]. *)
Definition deploy_step (a : loc) : M (State E) Flow :=
  '(carry_on, err) ← dependencies a;
  if truthy_str err then
    update a (Action.set_action_state (Some FAILED_DEPENDENCIES));;
    update a (Action.set_error_message err);;
    mret Break
  else
    update a (Action.set_error_message None);;
    if negb carry_on then mret Continue
    else
      carry_on ← dispatch a;
      if negb carry_on then mret Break
      else promote a;; mret Promoted.

Fixpoint deploy_loop (actions : list loc) (count : nat) : M (State E) nat :=
  match actions with
  | [] => mret count
  | a :: rest =>
      flow ← deploy_step a;
      match flow with
      | Break => mret count
      | Continue => deploy_loop rest count
      | Promoted => deploy_loop rest (S count)
      end
  end.

Definition deploy : M (State E) unit :=
  s ← get;
  count ← deploy_loop (Workflow.actions (workflow s)) 0;
  modify (λ s, set_workflow
                 (Workflow.set_actions
                    (drop count (Workflow.actions (workflow s))) (workflow s)) s).

End Driver.

(** ** The validators *)

(** [values.get(f)] is truthy, for the fields [check_fields] is called on. *)
Definition field_truthy (values : Action.t) (f : string) : bool :=
  if String.eqb f "contract_name" then truthy_str (Action.contract_name values)
  else if String.eqb f "code" then truthy_str (Action.code values)
  else if String.eqb f "api_name" then truthy_str (Action.api_name values)
  else if String.eqb f "method_name" then truthy_str (Action.method_name values)
  else false.

(** [Action.check_fields].  The message is formatted with the value of
    the enumeration member, as Python up to 3.10 formats a member of a
    [(str, Enum)] class; from Python 3.11 on the same f-string prints the
    qualified name of the member ([ActionType.DEPLOY_LIBRARY]).  The
    statements about the validators do not fix the text. *)
Fixpoint check_fields (action : ActionType) (values : Action.t) (fields : list string)
  : Result unit :=
  match fields with
  | [] => Ok tt
  | f :: rest =>
      if negb (field_truthy values f) then
        Raise (ValueError (" field " +:+ f +:+ " is required for action type "
                             +:+ ActionType_value action))
      else check_fields action values rest
  end.

(** [Action.check_by_type]; the record always has an [action_type]. *)
Definition check_by_type (values : Action.t) : Result unit :=
  let action_type := Action.action_type values in
  match action_type with
  | DEPLOY_LIBRARY => check_fields action_type values ["contract_name"; "code"]
  | DEPLOY_CONTRACT => check_fields action_type values ["contract_name"; "code"; "api_name"]
  | METHOD_CALL => check_fields action_type values ["method_name"; "api_name"]
  | DEPLOY_PROXY => check_fields action_type values ["api_name"]
  end.

(** The inner loop of [Workflow.check] over the dependencies of one
    action; returns [got_impl_dep]. *)
Fixpoint check_deps (deps : list Dependency.t) (previous : list (option string))
    (got_impl_dep : bool) : Result bool :=
  match deps with
  | [] => Ok got_impl_dep
  | dep :: rest =>
      if truthy_str (Some (Dependency.parent dep))
         && negb (bool_decide (Some (Dependency.parent dep) ∈ previous)) then
        Raise (ValueError "action depends on a action that is not defined previously")
      else
        check_deps rest previous
          (if bool_decide (Dependency.dependency_type dep = IMPL) then true
           else got_impl_dep)
  end.

(** The outer loop of [Workflow.check]. *)
Fixpoint check_loop (i : nat) (actions : list Action.t) (previous : list (option string))
  : Result unit :=
  match actions with
  | [] => Ok tt
  | action :: rest =>
      if Nat.eqb i 0 && truthy_list (Action.dependencies action) then
        Raise (ValueError "initial action cannot have dependencies")
      else
        result_bind
          (if truthy_list (Action.dependencies action) then
             check_deps (default [] (Action.dependencies action)) previous false
           else Ok false)
          (λ got_impl_dep,
             if bool_decide (Action.action_type action = DEPLOY_PROXY)
                && negb got_impl_dep then
               Raise (ValueError "action is a deploy proxy but has not dependency on an impl")
             else check_loop (S i) rest (previous ++ [Action.contract_name action]))
  end.

(** [Workflow.check] on the validated [actions] field. *)
Definition check (actions : list Action.t) : Result unit :=
  match actions with
  | [] => Raise (ValueError "No actions defined.")
  | _ => check_loop 0 actions []
  end.

(** ** The executor for the SIMBA platform ([SimbaExecutor]) *)

(** Truthiness of a value of type [Any]. *)
Definition py_truthy (v : PyVal) : bool :=
  match v with
  | VNone => false
  | VBool b => b
  | VInt z => negb (Z.eqb z 0)
  | VStr s => negb (String.eqb s "")
  | VList l => match l with [] => false | _ :: _ => true end
  | VDict d => match d with [] => false | _ :: _ => true end
  end.

(** [v == name] where [name] is a string or [None]. *)
Definition py_eq_name (v : PyVal) (name : option string) : bool :=
  match v, name with
  | VStr s, Some n => String.eqb s n
  | VNone, None => true
  | _, _ => false
  end.

(** The loop of [get_address] over the entries of the deployment. *)
Fixpoint get_address_loop (deps : list PyVal) (name : option string) : Result PyVal :=
  match deps with
  | [] => Ok VNone
  | dep :: rest =>
      result_bind (py_get dep (Some "name") VNone) (λ n,
      if py_eq_name n name then py_get dep (Some "address") VNone
      else get_address_loop rest name)
  end.

(** [SimbaExecutor.get_address] (the [print] left out). *)
Definition get_address (deployment : PyVal) (name : option string) : Result PyVal :=
  result_bind (py_get deployment (Some "deployment") (VList [])) (λ deps,
  result_bind (py_get deployment (Some "primary") VNone) (λ primary,
  result_bind
    (if py_truthy primary then
       result_bind (py_get primary (Some "name") VNone) (λ n, Ok (py_eq_name n name))
     else Ok false) (λ is_primary,
  if is_primary then py_get primary (Some "address") VNone
  else result_bind (py_iter deps) (λ deps, get_address_loop deps name)))).

(** What [SimbaExecutor.set_proxy] uses of libsimba and of Python:
    [PutRequest(endpoint=path).put(json_payload=...)], and [str(ex)] of
    the exception it catches. *)
Class Platform : Type := {
  put_request : string → PyDict → Result PyVal;
  exception_str : PyExn → string
}.

(** An [Optional[str]] inside an f-string. *)
Definition fstr (o : option string) : string := default "None" o.

Section Simba.
Context {platform : Platform} {E : Type}.

(** [SimbaExecutor.set_proxy]: the path is built before the [try]; the
    payload and the request are inside it. *)
Definition simba_set_proxy (workflow : Workflow.t)
    (proxy_contract impl_contract : option Contract.t)
  : M E (option string * option string) :=
  proxy ← attr_of proxy_contract;
  let path := "/v2/organisations/" +:+ Workflow.org workflow +:+ "/deployed_contracts/"
              +:+ fstr (Contract.id proxy) +:+ "/proxy/" in
  match
    match impl_contract with
    | None => Raise AttributeError
    | Some impl =>
        put_request path [(Some "implementation", py_of_str (Contract.id impl))]
    end
  with
  | Ok _ => mret (Some "OK", None)
  | Raise ex => mret (None, Some (exception_str ex))
  end.

(** [SimbaExecutor].  Its [compile_contract], [deploy_contract] and
    [submit_transaction] are [pass]: they return [None], and the
    assignment of that result to two names, which every caller makes,
    raises [TypeError]; the model raises it at the call.
    [deploy_library] goes through the platform's deployment service and
    is left as a parameter. *)
Definition SimbaExecutor
    (simba_deploy_library :
       string → option string → option string → string → string → option bool →
       M E (option Contract.t * option string))
  : Executor E := {|
  deploy_library := simba_deploy_library;
  compile_contract name code target_contract libraries encode := raise TypeError;
  deploy_contract contract api_name blockchain storage args app_name := raise TypeError;
  submit_transaction api_name method args := raise TypeError;
  set_proxy := simba_set_proxy
|}.

End Simba.

(** ** Building a workflow

    [Workflow(app_name=..., actions=plan)]: the plan is validated, each
    action becomes an object of the store, [completed] starts empty. *)

Definition initial_state {E : Type} (app_name org blockchain : string)
    (storage : option string) (plan : list Action.t) (e : E) : State E :=
  mkState (map_seq 0 plan)
          (Workflow.mk app_name org blockchain (seq 0 (length plan)) storage ∅)
          (mkWorld e []).

Definition new_workflow {E : Type} (app_name org blockchain : string)
    (storage : option string) (plan : list Action.t) (e : E) : Result (State E) :=
  result_bind (foldr (λ a r, result_bind (check_by_type a) (λ _, r)) (Ok tt) plan) (λ _,
  result_bind (check plan) (λ _,
  Ok (initial_state app_name org blockchain storage plan e))).

(** [Action(action_type=...)] with every other field at its default. *)
Definition new_action (action_type : ActionType) : Action.t :=
  Action.mk action_type None None None None None (Some INITED) None None
            (Some true) None None None.

(** ** The executor of the test suite ([tests/test_workflow.py])

    Its state is the counter [count], which its [deploy] increments
    before running the driver.

    Its [deploy_contract] assigns [address], [id] and [api_name] on the
    [Contract] object it is passed and returns that object.  Contracts
    are values here, so the updated record is returned; the two agree as
    long as no other action refers to the object passed, which is the
    case in every run of this executor below. *)

Definition count_str (count : nat) : string := pretty count.

Definition TestExecutor : Executor nat := {|
  deploy_library org lib_name code blockchain app_name encode := λ count,
    if Nat.eqb count 1 then
      Ok ((None, Some "could not deploy lib for some reason"), count)
    else
      Ok ((Some (Contract.mk (Some (count_str count)) (Some ("0x" +:+ count_str count))
                   None None (Some []) (Some [])), None), count);
  compile_contract name code target_contract libraries encode := λ count,
    if Nat.eqb count 2 then Ok ((None, Some "Could not compile design"), count)
    else if bool_decide (name = Some "SIMBAProxy") then
      Ok ((Some (Contract.mk None None None (Some (count_str count))
                   (Some []) (Some [])), None), count)
    else
      Ok ((Some (Contract.mk None None None (Some (count_str count))
                   (Some [VDict [(Some "name", VStr "initialize")]])
                   (Some [(Some "contract", VDict [(Some "methods",
                      VDict [(Some "initialize",
                        VDict [(Some "params",
                          VList [VDict [(Some "name", VStr "name")];
                                 VDict [(Some "name", VStr "symbol")]])])])])])),
           None), count);
  deploy_contract contract api_name blockchain storage args app_name := λ count,
    if Nat.eqb count 3 then Ok ((None, Some "Could not deploy contract"), count)
    else
      match contract with
      | None => Raise AttributeError
      | Some c =>
          Ok ((Some (Contract.mk (Some (count_str count)) (Some ("0x" +:+ count_str count))
                       api_name (Contract.design_id c) (Contract.abi c)
                       (Contract.metadata c)), None), count)
      end;
  submit_transaction api_name method args := λ count,
    Ok ((Some ("0x" +:+ count_str count), None), count);
  set_proxy workflow proxy_contract impl_contract := λ count,
    Ok ((Some ("0x" +:+ count_str count), None), count)
|}.

(** [TestExecutor.deploy]: bump the counter, then [super().deploy]. *)
Definition test_deploy {C : Type} {web3 : Web3 C} : M (State nat) unit :=
  modify (λ s, set_world (mkWorld (S (executor (world s))) (calls (world s))) s);;
  deploy (exe:=TestExecutor).

(** A web3 whose encoder returns the method name and the arguments it was
    given, and a fixed proxy source. *)
#[global] Instance EchoWeb3 : Web3 (option (list PyVal)) := {|
  load_proxy_encoded := Ok "cHJveHk=";
  eth_contract abi := Ok abi;
  encodeABI c fn_name args :=
    match fn_name with
    | Some f => Ok (f +:+ foldr (λ v acc, match v with
                                          | VStr s => ":" +:+ s +:+ acc
                                          | _ => ":?" +:+ acc
                                          end) "" args)
    | None => Raise (ExternalError "fn_name")
    end
|}.

Definition test_plan : list Action.t :=
  [ Action.set_code (Some "hello world")
      (Action.set_contract_name (Some "DataUri") (new_action DEPLOY_LIBRARY));
    Action.set_code (Some "hello world")
      (Action.set_contract_name (Some "Metadata") (new_action DEPLOY_LIBRARY));
    Action.mk DEPLOY_CONTRACT (Some "MyNft") (Some "hello world")
      (Some [Dependency.mk LIBRARY "DataUri" None None None;
             Dependency.mk LIBRARY "Metadata" None None None])
      (Some "my-api") None (Some INITED) None None (Some true) None None None;
    Action.mk DEPLOY_PROXY None None
      (Some [Dependency.mk IMPL "MyNft" None (Some "initialize")
               (Some [(Some "name", VStr "My NFT"); (Some "symbol", VStr "MNT")])])
      (Some "my-proxy") None (Some INITED) None None (Some true) None None None ].

Definition run_n {S : Type} (m : M S unit) : nat → S → Result S :=
  fix go n s :=
    match n with
    | 0 => Ok s
    | S n' => match m s with Ok (_, s') => go n' s' | Raise e => Raise e end
    end.

Definition test_run (n : nat) : Result (State nat) :=
  result_bind (new_workflow "myApp" "MyOrg" "Quorum" None test_plan 0) (run_n test_deploy n).

(** ** Further executors and concrete workflows *)

(** An executor on which everything succeeds except the first
    [set_proxy]; its state counts the [set_proxy] calls made. *)
Definition ProxyFailsOnce : Executor nat := {|
  deploy_library org lib_name code blockchain app_name encode := λ n,
    Ok ((Some (Contract.mk (Some "lib-id") (Some "0xlib") None None None None), None), n);
  compile_contract name code target_contract libraries encode := λ n,
    Ok ((Some (Contract.mk None None None (Some "design") (Some [])
                 (Some [(Some "contract", VDict [(Some "methods",
                    VDict [(Some "initialize",
                      VDict [(Some "params",
                        VList [VDict [(Some "name", VStr "name")]])])])])])),
         None), n);
  deploy_contract contract api_name blockchain storage args app_name := λ n,
    match contract with
    | None => Raise AttributeError
    | Some c =>
        Ok ((Some (Contract.mk (Some "id") (Some "0xaddr") api_name
                     (Contract.design_id c) (Contract.abi c) (Contract.metadata c)),
             None), n)
    end;
  submit_transaction api_name method args := λ n, Ok ((Some "0xtxn", None), n);
  set_proxy workflow proxy_contract impl_contract := λ n,
    if Nat.eqb n 0 then Ok ((None, Some "proxy not set"), S n)
    else Ok ((Some "OK", None), S n)
|}.

(** An implementation contract and the proxy that wraps it. *)
Definition proxy_plan : list Action.t :=
  [ Action.mk DEPLOY_CONTRACT (Some "MyNft") (Some "contract MyNft {}") None
      (Some "imp") None (Some INITED) None None (Some true) None None None;
    Action.mk DEPLOY_PROXY None None
      (Some [Dependency.mk IMPL "MyNft" None (Some "initialize")
               (Some [(Some "name", VStr "N")])])
      (Some "px") None (Some INITED) None None (Some true) None None None ].

Definition proxy_run (n : nat) : Result (State nat) :=
  result_bind (new_workflow "myApp" "MyOrg" "Quorum" None proxy_plan 0)
    (run_n (deploy (exe:=ProxyFailsOnce)) n).

(** A deployed library, as [TestExecutor.deploy_library] returns it. *)
Definition deployed_library : Contract.t :=
  Contract.mk (Some "2") (Some "0x2") None None (Some []) (Some []).

(** A workflow whose first pending action is already [COMPLETED]. *)
Definition completed_pending_state : State nat :=
  mkState
    {[ 0 := Action.mk DEPLOY_LIBRARY (Some "A") (Some "library A {}") None None None
              (Some COMPLETED) (Some deployed_library) None (Some true) None None None;
       1 := Action.set_code (Some "library B {}")
              (Action.set_contract_name (Some "B") (new_action DEPLOY_LIBRARY)) ]}
    (Workflow.mk "myApp" "MyOrg" "Quorum" [0; 1] None ∅)
    (mkWorld 0 []).

(** A compiled contract whose deployment failed on an earlier pass. *)
Definition compiled_contract : Contract.t :=
  Contract.mk None None None (Some "3") (Some []) (Some []).

Definition failed_complete_action : Action.t :=
  Action.mk DEPLOY_CONTRACT (Some "MyNft") (Some "hello world") None (Some "my-api")
    None (Some FAILED_COMPLETE) (Some compiled_contract) None (Some true) None None None.

Definition test_workflow_value : Workflow.t :=
  Workflow.mk "myApp" "MyOrg" "Quorum" [0] None ∅.

(** The same action, but its contract record carries the empty string as
    [design_id]. *)
Definition empty_design_id_action : Action.t :=
  Action.set_contract
    (Some (Contract.mk None None None (Some "") (Some []) (Some [])))
    failed_complete_action.

(** A pending action with a dependency on ["L"], in a workflow that has
    completed nothing. *)
Definition orphan_action (state : ActionState) : Action.t :=
  Action.mk DEPLOY_CONTRACT (Some "C") (Some "contract C {}")
    (Some [Dependency.mk LIBRARY "L" None None None]) (Some "c-api") None
    (Some state) None None (Some true) None None None.

Definition orphan_state (state : ActionState) : State nat :=
  mkState {[ 0 := orphan_action state ]}
          (Workflow.mk "myApp" "MyOrg" "Quorum" [0] None ∅)
          (mkWorld 0 []).

(** A single method call with no contract record and no [CONTRACT]
    dependency. *)
Definition method_call_plan : list Action.t :=
  [ Action.mk METHOD_CALL None None None (Some "my-api") None (Some INITED) None None
      (Some true) None (Some "mint") None ].

(** A library, and a contract that takes the library's address as the
    constructor argument [lib]; the contract declares no [args]. *)
Definition constructor_plan : list Action.t :=
  [ Action.set_code (Some "library L {}")
      (Action.set_contract_name (Some "L") (new_action DEPLOY_LIBRARY));
    Action.mk DEPLOY_CONTRACT (Some "C") (Some "contract C {}")
      (Some [Dependency.mk CONSTRUCTOR "L" (Some "lib") None None]) (Some "c-api") None
      (Some INITED) None None (Some true) None None None ].

(** The state in which the second action of [constructor_plan] is
    resolved: the library is deployed and completed. *)
Definition constructor_state : State nat :=
  mkState
    {[ 0 := Action.mk DEPLOY_LIBRARY (Some "L") (Some "library L {}") None None None
              (Some COMPLETED) (Some deployed_library) None (Some true) None None None;
       1 := Action.mk DEPLOY_CONTRACT (Some "C") (Some "contract C {}")
              (Some [Dependency.mk CONSTRUCTOR "L" (Some "lib") None None])
              (Some "c-api") None (Some INITED) None None (Some true) None None None ]}
    (Workflow.mk "myApp" "MyOrg" "Quorum" [1] None {[ Some "L" := 0 ]})
    (mkWorld 0 []).

(** A plan with a dependency whose [parent] is the empty string. *)
Definition empty_parent_plan : list Action.t :=
  [ Action.set_code (Some "library L {}")
      (Action.set_contract_name (Some "L") (new_action DEPLOY_LIBRARY));
    Action.mk DEPLOY_CONTRACT (Some "C") (Some "contract C {}")
      (Some [Dependency.mk LIBRARY "" None None None]) (Some "c-api") None
      (Some INITED) None None (Some true) None None None ].

(** A deployed implementation and a pending proxy depending on it. *)
Definition deployed_impl : Contract.t :=
  Contract.mk (Some "4") (Some "0x4") (Some "my-api") (Some "3")
    (Some [VDict [(Some "name", VStr "initialize")]])
    (Some [(Some "contract", VDict [(Some "methods",
       VDict [(Some "initialize",
         VDict [(Some "params",
           VList [VDict [(Some "name", VStr "name")];
                  VDict [(Some "name", VStr "symbol")]])])])])]).

Definition impl_dependency : Dependency.t :=
  Dependency.mk IMPL "MyNft" None (Some "initialize")
    (Some [(Some "name", VStr "My NFT"); (Some "symbol", VStr "MNT")]).

Definition pending_proxy : Action.t :=
  Action.mk DEPLOY_PROXY (Some "Old") (Some "old code") (Some [impl_dependency])
    (Some "my-proxy") (Some [(Some "x", VInt 1)]) (Some INITED) None None (Some true)
    None None None.

Definition proxy_state : State nat :=
  mkState
    {[ 0 := Action.mk DEPLOY_CONTRACT (Some "MyNft") (Some "hello world") None
              (Some "my-api") None (Some COMPLETED) (Some deployed_impl) None
              (Some true) None None None;
       1 := pending_proxy ]}
    (Workflow.mk "myApp" "MyOrg" "Quorum" [1] None {[ Some "MyNft" := 0 ]})
    (mkWorld 0 []).

(** An action without dependencies that carries a seeded contract and a
    library map. *)
Definition seeded_action : Action.t :=
  Action.mk METHOD_CALL None None (Some []) (Some "my-api") None (Some INITED)
    (Some deployed_impl) None (Some true) None (Some "mint")
    (Some [(Some "L", VStr "0x1")]).

Definition seeded_state : State nat :=
  mkState {[ 0 := seeded_action ]}
          (Workflow.mk "myApp" "MyOrg" "Quorum" [0] None ∅)
          (mkWorld 0 []).

(** ** Vocabulary of the statements *)

(** The resolver run on [a] touches the object at [a] only: the workflow
    (its [completed] table included), the executor and every other object
    are as before, and [a] stays allocated. *)
Definition only_changes {E : Type} (a : loc) (s s' : State E) : Prop :=
  workflow s' = workflow s
  ∧ world s' = world s
  ∧ (∀ l, l ≠ a → heap s' !! l = heap s !! l)
  ∧ (is_Some (heap s !! a) → is_Some (heap s' !! a)).

Definition preserves {E A : Type} (R : State E → State E → Prop) (m : M (State E) A)
  : Prop :=
  ∀ s x s', m s = Ok (x, s') → R s s'.

(** One iteration of the driver on [a] leaves the list [actions] and every
    object other than [a] as they were. *)
Definition pending_frame {E : Type} (a : loc) (s s' : State E) : Prop :=
  Workflow.actions (workflow s') = Workflow.actions (workflow s)
  ∧ (∀ l, l ≠ a → heap s' !! l = heap s !! l).

(** [promoted_prefix s done s']: from [s], the iterations of the driver on
    the actions [done], in this order, all end in the promotion, and reach
    [s']. *)
Inductive promoted_prefix {C : Type} {web3 : Web3 C} {E : Type} {exe : Executor E}
  : State E → list loc → State E → Prop :=
| promoted_nil s : promoted_prefix s [] s
| promoted_cons s a s1 rest s2 :
    deploy_step a s = Ok (Promoted, s1) →
    promoted_prefix s1 rest s2 →
    promoted_prefix s (a :: rest) s2.

(** A dependency that cannot be resolved: its parent is not in
    [completed], or the completed action has no contract record. *)
Definition unresolvable {E : Type} (s : State E) (dep : Dependency.t) : Prop :=
  Workflow.completed (workflow s) !! Some (Dependency.parent dep) = None
  ∨ ∃ p prev,
      Workflow.completed (workflow s) !! Some (Dependency.parent dep) = Some p
      ∧ heap s !! p = Some prev
      ∧ Action.contract prev = None.

(** A library action that already carries a contract record. *)
Definition redeployed_library : Action.t :=
  Action.mk DEPLOY_LIBRARY (Some "DataUri") (Some "hello world") None None None
    (Some INITED) (Some deployed_library) None (Some true) None None None.


(** A resolved proxy action, on its first pass and on a retry after a
    failed [set_proxy]. *)
Definition resolved_proxy_action : Action.t :=
  Action.mk DEPLOY_PROXY (Some "SIMBAProxy") (Some "cHJveHk=") (Some [impl_dependency])
    (Some "my-proxy")
    (Some [(Some "_logic", VStr "0x4"); (Some "_data", VStr "initialize:My NFT:MNT")])
    (Some INITED) None (Some deployed_impl) (Some false) None None (Some []).

Definition deployed_proxy : Contract.t :=
  Contract.mk (Some "5") (Some "0x5") (Some "my-proxy") (Some "5") (Some []) (Some []).

Definition failed_proxy_action : Action.t :=
  Action.set_error_message (Some "proxy not set")
    (Action.set_action_state (Some FAILED_SET_PROXY)
       (Action.set_contract (Some deployed_proxy) resolved_proxy_action)).

(** The contract of [constructor_plan] with an [args] mapping. *)
Definition constructor_args_state : State nat :=
  mkState
    {[ 0 := Action.mk DEPLOY_LIBRARY (Some "L") (Some "library L {}") None None None
              (Some COMPLETED) (Some deployed_library) None (Some true) None None None;
       1 := Action.mk DEPLOY_CONTRACT (Some "C") (Some "contract C {}")
              (Some [Dependency.mk CONSTRUCTOR "L" (Some "lib") None None])
              (Some "c-api") (Some [(Some "owner", VStr "0xabc")])
              (Some INITED) None None (Some true) None None None ]}
    (Workflow.mk "myApp" "MyOrg" "Quorum" [1] None {[ Some "L" := 0 ]})
    (mkWorld 0 []).

(** Two completed libraries and a contract linked against both. *)
Definition library_at (name address : string) : Action.t :=
  Action.mk DEPLOY_LIBRARY (Some name) (Some "hello world") None None None
    (Some COMPLETED)
    (Some (Contract.mk (Some "1") (Some address) None None (Some []) (Some [])))
    None (Some true) None None None.

Definition linked_contract : Action.t :=
  Action.mk DEPLOY_CONTRACT (Some "MyNft") (Some "hello world")
    (Some [Dependency.mk LIBRARY "DataUri" None None None;
           Dependency.mk LIBRARY "Metadata" None None None])
    (Some "my-api") None (Some INITED) None None (Some true) None None
    (Some [(Some "Stale", VStr "0x0")]).

Definition linked_state : State nat :=
  mkState
    {[ 0 := library_at "DataUri" "0x1"; 1 := library_at "Metadata" "0x2";
       2 := linked_contract ]}
    (Workflow.mk "myApp" "MyOrg" "Quorum" [2] None
       {[ Some "DataUri" := 0; Some "Metadata" := 1 ]})
    (mkWorld 0 []).

(** A method call on a completed contract, named by a [CONTRACT]
    dependency; the action's own [api_name] differs from the contract's. *)
Definition method_call_action : Action.t :=
  Action.mk METHOD_CALL None None (Some [Dependency.mk CONTRACT "MyNft" None None None])
    (Some "other-api") (Some [(Some "to", VStr "0xabc")]) (Some INITED) None None
    (Some true) None (Some "mint") None.

Definition method_call_state : State nat :=
  mkState
    {[ 0 := Action.mk DEPLOY_CONTRACT (Some "MyNft") (Some "hello world") None
              (Some "my-api") None (Some COMPLETED) (Some deployed_impl) None
              (Some true) None None None;
       1 := method_call_action ]}
    (Workflow.mk "myApp" "MyOrg" "Quorum" [1] None {[ Some "MyNft" := 0 ]})
    (mkWorld 0 []).

(** A workflow whose one pending action is [COMPLETED] and still carries
    an error message. *)
Definition stale_state : State nat :=
  mkState
    {[ 0 := Action.set_error_message (Some "stale") (library_at "DataUri" "0x1") ]}
    (Workflow.mk "myApp" "MyOrg" "Quorum" [0] None ∅)
    (mkWorld 0 []).

(** The plan of the test suite, loaded, with the counter of the test
    executor at 2. *)
Definition second_pass_state : State nat :=
  initial_state "myApp" "MyOrg" "Quorum" None test_plan 2.

(** A deployment record as the platform returns it. *)
Definition sample_deployment : PyDict :=
  [(Some "primary", VDict [(Some "name", VStr "MyNft"); (Some "address", VStr "0xa")]);
   (Some "deployment",
    VList [VDict [(Some "name", VStr "DataUri"); (Some "address", VStr "0xb")];
           VDict [(Some "name", VStr "Metadata"); (Some "address", VStr "0xc")];
           VDict [(Some "name", VStr "Metadata"); (Some "address", VStr "0xd")]])].

(** A platform whose PUT request times out: the exception has no text. *)
Definition exception_text (ex : PyExn) : string :=
  match ex with
  | AttributeError => "'NoneType' object has no attribute 'id'"
  | TypeError => "type error"
  | ValueError msg => msg
  | ExternalError msg => msg
  | DanglingRef => ""
  end.

Definition TimeoutPlatform : Platform :=
  {| put_request path payload := Raise (ExternalError "");
     exception_str := exception_text |}.

(** The address the resolver reads for a dependency: that of the contract
    of the completed action named by [parent]. *)
Definition parent_address {E : Type} (s : State E) (dep : Dependency.t) : option PyVal :=
  p ← Workflow.completed (workflow s) !! Some (Dependency.parent dep);
  prev ← heap s !! p;
  contract ← Action.contract prev;
  Some (py_of_str (Contract.address contract)).

(** The fields of an action that describe the plan: neither the resolver
    nor a handler assigns them. *)
Definition plan_fields (action action' : Action.t) : Prop :=
  Action.action_type action' = Action.action_type action
  ∧ Action.dependencies action' = Action.dependencies action
  ∧ Action.api_name action' = Action.api_name action
  ∧ Action.method_name action' = Action.method_name action.

(** The fields the resolver never assigns. *)
Definition resolver_keeps (action action' : Action.t) : Prop :=
  plan_fields action action'
  ∧ Action.action_state action' = Action.action_state action
  ∧ Action.error_message action' = Action.error_message action.

(** Every object of [s] is still there in [s'], related by [Q]. *)
Definition heap_rel {E : Type} (Q : Action.t → Action.t → Prop) (s s' : State E) : Prop :=
  ∀ l action, heap s !! l = Some action →
              ∃ action', heap s' !! l = Some action' ∧ Q action action'.

(** What a pass of the driver over the actions [pending] keeps: the
    objects and their plan fields, the scope of the workflow, the keys of
    [completed] (new entries refer to pending actions), and the calls
    already made on the Executor. *)
Definition deploy_invariant {E : Type} (pending : list loc) (s s' : State E) : Prop :=
  heap_rel plan_fields s s'
  ∧ Workflow.app_name (workflow s') = Workflow.app_name (workflow s)
  ∧ Workflow.org (workflow s') = Workflow.org (workflow s)
  ∧ Workflow.blockchain (workflow s') = Workflow.blockchain (workflow s)
  ∧ Workflow.storage (workflow s') = Workflow.storage (workflow s)
  ∧ (∀ k, is_Some (Workflow.completed (workflow s) !! k) →
          is_Some (Workflow.completed (workflow s') !! k))
  ∧ (∀ k l, Workflow.completed (workflow s') !! k = Some l →
            Workflow.completed (workflow s) !! k = Some l ∨ l ∈ pending)
  ∧ ∃ new, calls (world s') = calls (world s) ++ new.

(** The fields a handler reads but never assigns. *)
Definition same_inputs (action action' : Action.t) : Prop :=
  Action.action_type action' = Action.action_type action
  ∧ Action.contract_name action' = Action.contract_name action
  ∧ Action.code action' = Action.code action
  ∧ Action.dependencies action' = Action.dependencies action
  ∧ Action.api_name action' = Action.api_name action
  ∧ Action.args action' = Action.args action
  ∧ Action.impl_contract action' = Action.impl_contract action
  ∧ Action.encode action' = Action.encode action
  ∧ Action.method_name action' = Action.method_name action
  ∧ Action.libraries action' = Action.libraries action.

(** * Properties *)

(** ** Reasoning about monadic code *)

Lemma bind_Ok {S A B : Type} (m : M S A) (k : A → M S B) s b s' :
  (m ≫= k) s = Ok (b, s') ↔ ∃ a s1, m s = Ok (a, s1) ∧ k a s1 = Ok (b, s').
Proof.
  unfold mbind, M_bind. split.
  - destruct (m s) as [[a s1]|e]; [eauto | discriminate].
  - intros (a & s1 & -> & Hk). exact Hk.
Qed.

Lemma bind_run {S A B : Type} (m : M S A) (k : A → M S B) s a s1 :
  m s = Ok (a, s1) → (m ≫= k) s = k a s1.
Proof. intros Hm. unfold mbind, M_bind. by rewrite Hm. Qed.

Lemma bind_raise {S A B : Type} (m : M S A) (k : A → M S B) s e :
  m s = Raise e → (m ≫= k) s = Raise e.
Proof. intros Hm. unfold mbind, M_bind. by rewrite Hm. Qed.

Lemma read_run {E : Type} (s : State E) a action :
  heap s !! a = Some action → read a s = Ok (action, s).
Proof. intros H. unfold read. by rewrite H. Qed.

Lemma update_run {E : Type} (s : State E) a f action :
  heap s !! a = Some action →
  update a f s = Ok (tt, set_heap (<[a := f action]> (heap s)) s).
Proof. intros H. unfold update. by rewrite (bind_run _ _ _ _ _ (read_run _ _ _ H)). Qed.

Lemma get_run {S : Type} (s : S) : get s = Ok (s, s).
Proof. reflexivity. Qed.

Lemma lift_result_run {S A : Type} (r : Result A) (x : A) (s : S) :
  r = Ok x → lift_result r s = Ok (x, s).
Proof. by intros ->. Qed.

(** Symbolic execution of one monadic step whose outcome is known. *)
Ltac heap_lookup :=
  simpl; first [eassumption | apply lookup_insert_eq].
Ltac mrun :=
  first
    [ erewrite bind_run; [| apply update_run; heap_lookup]
    | erewrite bind_run; [| apply read_run; heap_lookup]
    | erewrite bind_run; [| apply get_run]
    | erewrite bind_run; [| apply lift_result_run; eassumption]
    | erewrite bind_run; [| reflexivity] ].

(** ** Relations preserved by monadic code *)

Section Preserves.
Context {E : Type} (R : State E → State E → Prop) `{!PreOrder R}.

Lemma preserves_mret {A : Type} (x : A) : preserves R (mret x).
Proof. by intros s y s' [= <- <-]. Qed.

Lemma preserves_bind {A B : Type} (m : M (State E) A) (k : A → M (State E) B) :
  preserves R m → (∀ x, preserves R (k x)) → preserves R (m ≫= k).
Proof.
  intros Hm Hk s y s' H. apply bind_Ok in H as (x & s1 & H1 & H2).
  etrans; [eapply Hm | eapply Hk]; eauto.
Qed.

Lemma preserves_read l : preserves R (read l).
Proof.
  intros s y s' H. unfold read in H.
  by destruct (heap s !! l); inversion H; subst.
Qed.

Lemma preserves_get : preserves R get.
Proof. by intros s y s' [= <- <-]. Qed.

Lemma preserves_raise {A : Type} e : preserves R (raise (A:=A) e).
Proof. intros s y s' H. discriminate. Qed.

Lemma preserves_lift_result {A : Type} (r : Result A) : preserves R (lift_result r).
Proof.
  intros s y s' H. unfold lift_result in H.
  by destruct r; inversion H; subst.
Qed.

Lemma preserves_attr_of {A : Type} (o : option A) : preserves R (attr_of o).
Proof. destruct o; [apply preserves_mret | apply preserves_raise]. Qed.

End Preserves.

Lemma preserves_weaken {E A : Type} (R R' : State E → State E → Prop)
    (m : M (State E) A) :
  (∀ s s', R s s' → R' s s') → preserves R m → preserves R' m.
Proof. intros HR Hm s x s' H. eauto. Qed.

Ltac preserves_step :=
  first
    [ apply preserves_mret; apply _ | apply preserves_read; apply _
    | apply preserves_get; apply _
    | apply preserves_raise | apply preserves_lift_result; apply _
    | apply preserves_attr_of; apply _
    | apply preserves_bind; [apply _| |intros ?]
    | match goal with
      | |- preserves _ (match ?x with _ => _ end) => destruct x
      end ].

(** ** The action handlers *)

Section HandlerFacts.
Context {E : Type} {exe : Executor E}.

Lemma invoke_run {A : Type} (c : Call) (op : M E A) (w : World E) r e' :
  op (executor w) = Ok (r, e') →
  invoke c op w = Ok (r, mkWorld e' (calls w ++ [c])).
Proof.
  intros Hop. unfold invoke, zoom, modify, mbind, M_bind. simpl. by rewrite Hop.
Qed.

Lemma invoke_Ok {A : Type} (c : Call) (op : M E A) (w : World E) r w' :
  invoke c op w = Ok (r, w') →
  ∃ e', op (executor w) = Ok (r, e') ∧ w' = mkWorld e' (calls w ++ [c]).
Proof.
  unfold invoke, zoom, modify, mbind, M_bind. simpl.
  destruct (op (executor w)) as [[r0 e0]|]; [|done].
  intros [= <- <-]. eauto.
Qed.

(** The guard of the compile phase, spelled out: Python's [not] treats the
    empty string like [None]. *)
Lemma needs_compile_spec (action : Action.t) :
  needs_compile action = true ↔
    Action.contract action = None
    ∨ (∃ contract, Action.contract action = Some contract
         ∧ (Contract.design_id contract = None ∨ Contract.design_id contract = Some ""))
    ∨ Action.action_state action = Some FAILED_COMPILE.
Proof.
  unfold needs_compile. destruct (Action.contract action) as [c|]; [|by split; auto].
  rewrite orb_true_iff, negb_true_iff, bool_decide_eq_true.
  unfold truthy_str. split.
  - intros [Hd | Hst]; [|by auto].
    right; left. exists c. split; [done|].
    destruct (Contract.design_id c) as [d|]; [|by left].
    apply negb_false_iff, String.eqb_eq in Hd. subst. by right.
  - intros [Hc | [(c' & [= <-] & Hd) | Hst]]; [done| |by right].
    left. by destruct Hd as [-> | ->].
Qed.

Lemma deploy_phase_calls contract action wf (w : World E) r w' :
  deploy_phase contract action wf w = Ok (r, w') →
  calls w' = calls w ++
    [CallDeployContract contract (Action.api_name action) (Workflow.blockchain wf)
       (Workflow.storage wf) (Action.args action) (Workflow.app_name wf)].
Proof.
  unfold deploy_phase. intros H. apply bind_Ok in H as ([c err] & w1 & Hinv & Hk).
  apply invoke_Ok in Hinv as (e' & _ & ->).
  destruct (truthy_str err); by inversion Hk.
Qed.

(** A failing deploy phase, whether or not the compile phase ran before
    it: the state is [FAILED_COMPLETE] and [error_message] is [None]. *)
Lemma deploy_phase_failure contract action wf (w : World E) contract' err e' :
  deploy_contract contract (Action.api_name action) (Workflow.blockchain wf)
    (Workflow.storage wf) (Action.args action) (Workflow.app_name wf) (executor w)
    = Ok ((contract', err), e') →
  truthy_str err = true →
  deploy_phase contract action wf w =
    Ok ((Action.set_error_message None
           (Action.set_action_state (Some FAILED_COMPLETE) action), false),
        mkWorld e' (calls w ++
          [CallDeployContract contract (Action.api_name action)
             (Workflow.blockchain wf) (Workflow.storage wf) (Action.args action)
             (Workflow.app_name wf)])).
Proof.
  intros Hop Herr. unfold deploy_phase.
  erewrite bind_run by (apply invoke_run; exact Hop).
  cbv beta iota. by rewrite Herr.
Qed.

(** C2 (as the code has it): when the deploy phase fails, the handler sets
    [FAILED_COMPLETE] and returns [(action, False)], but the error string
    it has just recorded is overwritten by [None]. *)
Theorem deploy_failure_clears_error_message action wf (w : World E) contract' err e' :
  needs_compile action = false →
  deploy_contract (Action.contract action) (Action.api_name action)
    (Workflow.blockchain wf) (Workflow.storage wf) (Action.args action)
    (Workflow.app_name wf) (executor w) = Ok ((contract', err), e') →
  truthy_str err = true →
  ∃ action' w',
    handle_deploy_contract action wf w = Ok ((action', false), w')
    ∧ Action.action_state action' = Some FAILED_COMPLETE
    ∧ Action.error_message action' = None
    ∧ Action.error_message action' ≠ err.
Proof.
  intros Hnc Hop Herr. unfold handle_deploy_contract. rewrite Hnc.
  unfold deploy_phase. erewrite bind_run by (apply invoke_run; exact Hop).
  cbv beta iota. rewrite Herr. do 2 eexists. split; [reflexivity|]. simpl.
  repeat split. intros <-. discriminate.
Qed.

(** An exception of the Executor is the exception of the call. *)
Lemma invoke_raise {A : Type} (c : Call) (op : M E A) (w : World E) e :
  op (executor w) = Raise e → invoke c op w = Raise e.
Proof.
  intros Hop. unfold invoke, zoom, modify, mbind, M_bind. simpl. by rewrite Hop.
Qed.

(** C3 (amended): [handle_deploy_contract] calls [compile_contract] if
    and only if [action.contract] is absent, or its [design_id] is absent
    or the empty string, or the state is [FAILED_COMPILE].  This holds of
    every run, whether it returns or raises.  Exactly under that
    condition [compile_contract] is run first, with the arguments taken
    from the action and on the Executor as it is on entry, so that an
    exception it raises is the handler's, whatever the Executor; and a
    run that returns has logged a [compile_contract] call exactly under
    that condition.  In particular a retry from [FAILED_COMPLETE] whose
    contract has a non-empty [design_id] makes one Executor call,
    [deploy_contract] on that contract: the handler raises what that call
    raises and otherwise returns with that call as the only one logged. *)
Theorem compile_contract_called_iff action wf (w : World E) :
  ((∀ (exe' : Executor E) e,
      compile_contract (Executor:=exe') (Action.contract_name action)
        (Action.code action) (Action.contract_name action) (Action.libraries action)
        (Action.encode action) (executor w) = Raise e →
      handle_deploy_contract (exe:=exe') action wf w = Raise e)
   ↔ Action.contract action = None
     ∨ (∃ contract, Action.contract action = Some contract
          ∧ (Contract.design_id contract = None
             ∨ Contract.design_id contract = Some ""))
     ∨ Action.action_state action = Some FAILED_COMPILE)
  ∧ (∀ r w',
       handle_deploy_contract action wf w = Ok (r, w') →
       ∃ new,
         calls w' = calls w ++ new
         ∧ (existsb is_compile_call new = true ↔
              Action.contract action = None
              ∨ (∃ contract, Action.contract action = Some contract
                   ∧ (Contract.design_id contract = None
                      ∨ Contract.design_id contract = Some ""))
              ∨ Action.action_state action = Some FAILED_COMPILE))
  ∧ (∀ contract design_id,
       Action.action_state action = Some FAILED_COMPLETE →
       Action.contract action = Some contract →
       Contract.design_id contract = Some design_id →
       design_id ≠ "" →
       match deploy_contract (Some contract) (Action.api_name action)
               (Workflow.blockchain wf) (Workflow.storage wf) (Action.args action)
               (Workflow.app_name wf) (executor w) with
       | Raise e => handle_deploy_contract action wf w = Raise e
       | Ok (_, e') =>
           ∃ r, handle_deploy_contract action wf w =
                  Ok (r, mkWorld e'
                           (calls w ++
                              [CallDeployContract (Some contract) (Action.api_name action)
                                 (Workflow.blockchain wf) (Workflow.storage wf)
                                 (Action.args action) (Workflow.app_name wf)]))
       end).
Proof.
  split; [|split].
  - rewrite <- needs_compile_spec. split.
    + intros H. destruct (needs_compile action) eqn:Hnc; [done|]. exfalso.
      pose (probe := λ e1 e2 : PyExn,
              {| deploy_library := λ _ _ _ _ _ _, raise e1;
                 compile_contract := λ _ _ _ _ _, raise e1;
                 deploy_contract := λ _ _ _ _ _ _, raise e2;
                 submit_transaction := λ _ _ _, raise e1;
                 set_proxy := λ _ _ _, raise e1 |} : Executor E).
      specialize (H (probe TypeError AttributeError) TypeError eq_refl).
      unfold handle_deploy_contract in H. rewrite Hnc in H. discriminate H.
    + intros Hnc exe' e Hraise. unfold handle_deploy_contract. rewrite Hnc.
      apply bind_raise. by apply invoke_raise.
  - intros r w' H. unfold handle_deploy_contract in H.
    destruct (needs_compile action) eqn:Hnc.
    + apply bind_Ok in H as ([c err] & w1 & Hinv & Hk).
      apply invoke_Ok in Hinv as (e1 & _ & ->).
      assert (∃ tl, calls w' =
        calls w ++ CallCompileContract (Action.contract_name action) (Action.code action)
          (Action.contract_name action) (Action.libraries action)
          (Action.encode action) :: tl) as [tl Htl].
      { destruct (truthy_str err).
        - inversion Hk; subst. by exists [].
        - apply deploy_phase_calls in Hk. simpl in Hk. rewrite <- assoc in Hk by apply _.
          eauto. }
      eexists. split; [exact Htl|].
      rewrite <- needs_compile_spec. by rewrite Hnc.
    + apply deploy_phase_calls in H. eexists. split; [exact H|].
      rewrite <- needs_compile_spec. by rewrite Hnc.
  - intros contract design_id Hst Hc Hd Hne.
    assert (needs_compile action = false) as Hnc.
    { destruct (needs_compile action) eqn:Hnc; [|done].
      apply needs_compile_spec in Hnc as [Hn | [(c1 & Hc1 & Hd1) | Hfc]];
        [congruence| |congruence].
      assert (c1 = contract) by congruence. subst. destruct Hd1; congruence. }
    unfold handle_deploy_contract. rewrite Hnc, Hc. unfold deploy_phase.
    destruct (deploy_contract _ _ _ _ _ _ (executor w)) as [[[c' err] e']|e] eqn:Hop.
    + erewrite bind_run by (apply invoke_run; exact Hop).
      cbv beta iota. destruct (truthy_str err); eexists; reflexivity.
    + apply bind_raise. by apply invoke_raise.
Qed.

(** A retry of a proxy action from [FAILED_SET_PROXY] on which [set_proxy]
    succeeds returns the action as it was given, state included. *)
Lemma handle_deploy_proxy_retry action wf (w : World E) msg err e' :
  Action.action_state action = Some FAILED_SET_PROXY →
  set_proxy wf (Action.contract action) (Action.impl_contract action) (executor w)
    = Ok ((msg, err), e') →
  truthy_str err = false →
  handle_deploy_proxy action wf w =
    Ok ((action, true),
        mkWorld e' (calls w ++ [CallSetProxy wf (Action.contract action)
                                  (Action.impl_contract action)])).
Proof.
  intros Hst Hop Herr. unfold handle_deploy_proxy. rewrite Hst. simpl.
  unfold set_proxy_phase. erewrite bind_run by (apply invoke_run; exact Hop).
  cbv beta iota. by rewrite Herr.
Qed.

End HandlerFacts.

Section ResolverFacts.
Context {C : Type} {web3 : Web3 C} {E : Type}.


(** C10: on an action that is not [COMPLETED] and has no dependencies
    ([None] or the empty list) the resolver returns [(True, None)] and
    changes nothing: every field of the action, a seeded [contract] and the
    [libraries] field included, keeps its value, as does the rest of the
    state. *)
Theorem dependencies_without_deps_is_identity (s : State E) a action :
  heap s !! a = Some action →
  Action.action_state action ≠ Some COMPLETED →
  Action.dependencies action = None ∨ Action.dependencies action = Some [] →
  dependencies a s = Ok ((true, None), s).
Proof.
  intros Ha Hst Hdeps. unfold dependencies.
  rewrite (bind_run _ _ _ _ _ (read_run _ _ _ Ha)).
  rewrite bool_decide_eq_false_2 by congruence.
  by destruct Hdeps as [-> | ->].
Qed.


(** C7 (as the code has it): a [CONSTRUCTOR] dependency on a resolvable
    parent, reached on an action whose [args] is [None], raises
    [TypeError]: no empty mapping is allocated. *)
Theorem constructor_dependency_without_args_raises (s : State E) a action dep libs
    p prev prev_contract :
  Dependency.dependency_type dep = CONSTRUCTOR →
  heap s !! a = Some action →
  Action.args action = None →
  Workflow.completed (workflow s) !! Some (Dependency.parent dep) = Some p →
  heap s !! p = Some prev →
  Action.contract prev = Some prev_contract →
  resolve_dep a dep libs s = Raise TypeError.
Proof.
  intros Hty Ha Hargs Hp Hprev Hc. unfold resolve_dep. rewrite Hty.
  mrun. rewrite Hp. mrun. rewrite Hc.
  apply bind_raise. mrun. by rewrite Hargs.
Qed.

(** *** What the resolver leaves alone *)

#[global] Instance only_changes_preorder a : PreOrder (only_changes (E:=E) a).
Proof.
  split.
  - intros s. by repeat split.
  - intros s1 s2 s3 (Hw1 & Hx1 & Hh1 & Ha1) (Hw2 & Hx2 & Hh2 & Ha2). repeat split.
    + congruence.
    + congruence.
    + intros l Hl. rewrite Hh2, Hh1; done.
    + auto.
Qed.

Lemma preserves_update a f : preserves (only_changes (E:=E) a) (update a f).
Proof.
  intros s y s' H. unfold update in H.
  apply bind_Ok in H as (action & s1 & H1 & H2).
  unfold read in H1. destruct (heap s !! a) eqn:Ha; inversion H1; subst.
  inversion H2; subst. repeat split; simpl.
  - intros l Hl. by rewrite lookup_insert_ne.
  - intros _. rewrite lookup_insert_eq. eauto.
Qed.

Lemma resolve_dep_only_changes a dep libs :
  preserves (only_changes (E:=E) a) (resolve_dep a dep libs).
Proof.
  unfold resolve_dep. repeat first [apply preserves_update | preserves_step].
Qed.

Lemma dependencies_loop_only_changes a deps libs :
  preserves (only_changes (E:=E) a) (dependencies_loop a deps libs).
Proof.
  revert libs. induction deps as [|dep rest IH]; intros libs; simpl.
  - apply preserves_mret, _.
  - apply preserves_bind; [apply _|apply resolve_dep_only_changes|].
    intros [msg|libs']; [apply preserves_mret, _ | apply IH].
Qed.

Lemma dependencies_only_changes a :
  preserves (only_changes (E:=E) a) (dependencies a).
Proof.
  unfold dependencies. apply preserves_bind; [apply _|apply preserves_read, _|].
  intros action. destruct (bool_decide _);
    [apply preserves_mret, _ | apply dependencies_loop_only_changes].
Qed.

Lemma resolve_dep_unresolvable (s : State E) a dep libs :
  unresolvable s dep →
  resolve_dep a dep libs s = Ok (inl (unresolved_message (Dependency.parent dep)), s).
Proof.
  intros [Hnone | (p & prev & Hp & Hprev & Hc)]; unfold resolve_dep; mrun.
  - by rewrite Hnone.
  - rewrite Hp. mrun. by rewrite Hc.
Qed.

Lemma dependencies_loop_stops_at_unresolvable (s s1 : State E) a pre dep post libs :
  dependencies_loop a pre libs s = Ok ((true, None), s1) →
  unresolvable s1 dep →
  dependencies_loop a (pre ++ dep :: post) libs s =
    Ok ((false, Some (unresolved_message (Dependency.parent dep))), s1).
Proof.
  revert s libs. induction pre as [|d pre IH]; intros s libs Hpre Hun; simpl in *.
  - inversion Hpre; subst.
    by rewrite (bind_run _ _ _ _ _ (resolve_dep_unresolvable _ _ _ _ Hun)).
  - apply bind_Ok in Hpre as (r & s0 & Hd & Hk).
    rewrite (bind_run _ _ _ _ _ Hd).
    destruct r as [msg|libs']; [by inversion Hk|]. by apply IH.
Qed.

(** The only early return of the loop body is the unresolved-dependency
    message. *)
Lemma resolve_dep_inl (s s1 : State E) a dep libs msg :
  resolve_dep a dep libs s = Ok (inl msg, s1) →
  msg = unresolved_message (Dependency.parent dep).
Proof.
  unfold resolve_dep. intros H.
  apply bind_Ok in H as (s0 & s0' & [= <- <-] & H).
  destruct (Workflow.completed (workflow s) !! Some (Dependency.parent dep));
    [|by inversion H].
  apply bind_Ok in H as (prev & s2 & _ & H).
  destruct (Action.contract prev); [|by inversion H].
  apply bind_Ok in H as (libs' & s3 & _ & H).
  apply bind_Ok in H as (u & s4 & _ & H). inversion H.
Qed.

Lemma dependencies_loop_result (s s1 : State E) a deps libs carry_on err :
  dependencies_loop a deps libs s = Ok ((carry_on, err), s1) →
  (carry_on = true ∧ err = None)
  ∨ (carry_on = false ∧ ∃ parent, err = Some (unresolved_message parent)).
Proof.
  revert s libs. induction deps as [|dep rest IH]; intros s libs H; simpl in H.
  - inversion H. by left.
  - apply bind_Ok in H as (r & s0 & Hd & H).
    destruct r as [msg|libs'].
    + apply resolve_dep_inl in Hd as ->. inversion H. right. eauto.
    + by eapply IH.
Qed.

(** On an action that is not [COMPLETED] the resolver either succeeds or
    reports an unresolved dependency. *)
Lemma dependencies_result (s s1 : State E) a action carry_on err :
  heap s !! a = Some action →
  Action.action_state action ≠ Some COMPLETED →
  dependencies a s = Ok ((carry_on, err), s1) →
  (carry_on = true ∧ err = None)
  ∨ (carry_on = false ∧ ∃ parent, err = Some (unresolved_message parent)).
Proof.
  intros Ha Hst H. unfold dependencies in H.
  rewrite (bind_run _ _ _ _ _ (read_run _ _ _ Ha)) in H.
  rewrite bool_decide_eq_false_2 in H by congruence.
  by eapply dependencies_loop_result.
Qed.

End ResolverFacts.

(** ** The driver *)

Section DriverFacts.
Context {C : Type} {web3 : Web3 C} {E : Type} {exe : Executor E}.

Lemma unresolved_message_truthy parent :
  truthy_str (Some (unresolved_message parent)) = true.
Proof. reflexivity. Qed.

Lemma set_actions_same (s : State E) :
  set_workflow (Workflow.set_actions (Workflow.actions (workflow s)) (workflow s)) s = s.
Proof. by destruct s as [h [] w]. Qed.

#[global] Instance pending_frame_preorder a : PreOrder (pending_frame (E:=E) a).
Proof.
  split.
  - intros s. by split.
  - intros s1 s2 s3 (Ha1 & Hh1) (Ha2 & Hh2). split.
    + congruence.
    + intros l Hl. rewrite Hh2, Hh1; done.
Qed.

Lemma only_changes_pending_frame a (s s' : State E) :
  only_changes a s s' → pending_frame a s s'.
Proof. intros (Hw & _ & Hh & _). split; [by rewrite Hw | done]. Qed.

Lemma update_pending_frame a f : preserves (pending_frame (E:=E) a) (update a f).
Proof.
  eapply preserves_weaken; [apply only_changes_pending_frame | apply preserves_update].
Qed.

Lemma run_handler_pending_frame handle a :
  preserves (pending_frame (E:=E) a) (run_handler handle a).
Proof.
  unfold run_handler.
  apply preserves_bind; [apply _ | apply preserves_read, _ | intros action].
  apply preserves_bind; [apply _ | apply preserves_get, _ | intros s0].
  apply preserves_bind; [apply _ | | intros [action' carry_on]].
  - intros s x s' H. unfold zoom in H.
    destruct (handle action (workflow s0) (world s)) as [[r w]|]; inversion H; subst.
    by split.
  - apply preserves_bind; [apply _ | apply update_pending_frame | intros _].
    apply preserves_mret, _.
Qed.

Lemma dispatch_pending_frame a : preserves (pending_frame (E:=E) a) (dispatch a).
Proof.
  unfold dispatch.
  apply preserves_bind; [apply _ | apply preserves_read, _ | intros action].
  destruct (Action.action_type action); apply run_handler_pending_frame.
Qed.

Lemma promote_pending_frame a : preserves (pending_frame (E:=E) a) (promote a).
Proof.
  unfold promote.
  apply preserves_bind; [apply _ | apply preserves_read, _ | intros action].
  intros s x s' [= _ <-]. by split.
Qed.

Lemma deploy_step_pending_frame a : preserves (pending_frame (E:=E) a) (deploy_step a).
Proof.
  unfold deploy_step.
  apply preserves_bind; [apply _ | | intros [carry_on err]].
  { eapply preserves_weaken;
      [apply only_changes_pending_frame | apply dependencies_only_changes]. }
  destruct (truthy_str err).
  - repeat first [apply update_pending_frame | preserves_step].
  - apply preserves_bind; [apply _ | apply update_pending_frame | intros _].
    destruct (negb carry_on); [apply preserves_mret, _|].
    apply preserves_bind; [apply _ | apply dispatch_pending_frame | intros c].
    destruct (negb c); [apply preserves_mret, _|].
    apply preserves_bind; [apply _ | apply promote_pending_frame | intros _].
    apply preserves_mret, _.
Qed.

(** An iteration ends in [continue] only on an action that was already
    [COMPLETED]. *)
Lemma deploy_step_continue (s s' : State E) a action :
  heap s !! a = Some action →
  deploy_step a s = Ok (Continue, s') →
  Action.action_state action = Some COMPLETED.
Proof.
  intros Ha H.
  destruct (decide (Action.action_state action = Some COMPLETED)) as [|Hst]; [done|].
  exfalso. unfold deploy_step in H.
  apply bind_Ok in H as ([carry_on err] & s1 & Hdeps & H).
  destruct (dependencies_result _ _ _ _ _ _ Ha Hst Hdeps)
    as [[-> ->] | [-> [parent ->]]].
  - simpl in H. apply bind_Ok in H as (u & s2 & _ & H).
    apply bind_Ok in H as (c & s3 & _ & H).
    destruct (negb c); [by inversion H|].
    apply bind_Ok in H as (u' & s4 & _ & H). by inversion H.
  - cbv beta iota in H. rewrite unresolved_message_truthy in H.
    apply bind_Ok in H as (u & s2 & _ & H).
    apply bind_Ok in H as (u' & s3 & _ & H). by inversion H.
Qed.

(** What a promotion is: the resolver let the action run, the handler of
    its type returned [carry_on=True], and the action is inserted into
    [completed] under the [contract_name] it has after resolution and
    handling. *)
Lemma deploy_step_promoted (s s' : State E) a :
  deploy_step a s = Ok (Promoted, s') →
  ∃ err s1 s1' s2 action,
    dependencies a s = Ok ((true, err), s1)
    ∧ truthy_str err = false
    ∧ update a (Action.set_error_message None) s1 = Ok (tt, s1')
    ∧ dispatch a s1' = Ok (true, s2)
    ∧ heap s2 !! a = Some action
    ∧ s' = set_workflow
             (Workflow.set_completed
                (<[Action.contract_name action := a]> (Workflow.completed (workflow s2)))
                (workflow s2)) s2.
Proof.
  unfold deploy_step. intros H.
  apply bind_Ok in H as ([carry_on err] & s1 & Hdeps & H).
  destruct (truthy_str err) eqn:Herr.
  { apply bind_Ok in H as (u & s2 & _ & H).
    apply bind_Ok in H as (u' & s3 & _ & H). by inversion H. }
  apply bind_Ok in H as ([] & s1' & Hupd & H).
  destruct carry_on; simpl in H; [|by inversion H].
  apply bind_Ok in H as (c & s2 & Hdisp & H).
  destruct c; simpl in H; [|by inversion H].
  apply bind_Ok in H as ([] & s3 & Hprom & H). inversion H; subst.
  unfold promote in Hprom. apply bind_Ok in Hprom as (action & s4 & Hread & Hmod).
  unfold read in Hread. destruct (heap s2 !! a) as [action'|] eqn:Ha; [|done].
  inversion Hread; subst. inversion Hmod; subst.
  by exists err, s1, s1', s4, action.
Qed.

(** What a [break] is: the resolver reported an unresolved dependency,
    recorded as [FAILED_DEPENDENCIES], or the handler returned
    [carry_on=False]. *)
Lemma deploy_step_break (s s' : State E) a action :
  heap s !! a = Some action →
  Action.action_state action ≠ Some COMPLETED →
  deploy_step a s = Ok (Break, s') →
  (∃ parent s1 action1,
     dependencies a s = Ok ((false, Some (unresolved_message parent)), s1)
     ∧ heap s1 !! a = Some action1
     ∧ s' = set_heap
              (<[a := Action.set_error_message (Some (unresolved_message parent))
                        (Action.set_action_state (Some FAILED_DEPENDENCIES) action1)]>
                 (heap s1)) s1)
  ∨ (∃ s1 s1',
       dependencies a s = Ok ((true, None), s1)
       ∧ update a (Action.set_error_message None) s1 = Ok (tt, s1')
       ∧ dispatch a s1' = Ok (false, s')).
Proof.
  intros Ha Hst H. unfold deploy_step in H.
  apply bind_Ok in H as ([carry_on err] & s1 & Hdeps & H).
  destruct (dependencies_result _ _ _ _ _ _ Ha Hst Hdeps)
    as [[-> ->] | [-> [parent ->]]].
  - right. simpl in H. apply bind_Ok in H as ([] & s1' & Hupd & H).
    apply bind_Ok in H as (c & s2 & Hdisp & H).
    destruct c; simpl in H.
    + apply bind_Ok in H as (u' & s4 & _ & H). by inversion H.
    + inversion H; subst. eauto.
  - left. cbv beta iota in H. rewrite unresolved_message_truthy in H.
    destruct (dependencies_only_changes _ _ _ _ Hdeps) as (_ & _ & _ & Hal).
    destruct Hal as [action1 Ha1]; [by eauto|].
    exists parent, s1, action1. split; [done|]. split; [done|].
    revert H. repeat mrun. intros [= <-].
    unfold set_heap; simpl. by rewrite insert_insert_eq.
Qed.

Lemma deploy_loop_cons a rest count :
  deploy_loop (a :: rest) count =
    (deploy_step a ≫= λ flow,
       match flow with
       | Break => mret count
       | Continue => deploy_loop rest count
       | Promoted => deploy_loop rest (S count)
       end).
Proof. reflexivity. Qed.

(** C5 (amended): let an action that is not [COMPLETED] have a dependency
    [dep] that is unresolvable when the resolver reaches it, the
    dependencies before it having been resolved.  Then the resolver
    returns [(False, "Dependency on contract <parent> cannot be
    resolved")] for the parent of [dep]; the driver sets the action to
    [FAILED_DEPENDENCIES] with that message and stops the pass there,
    without counting the action; and the workflow, its [completed] table
    included, is as it was when the action was reached.  When the action
    is the head of [workflow.actions], [deploy] returns with [actions]
    and [completed] unchanged. *)
Theorem unresolved_dependency_stops_the_pass (s s1 : State E) a action pre dep post
    rest count :
  heap s !! a = Some action →
  Action.action_state action ≠ Some COMPLETED →
  Action.dependencies action = Some (pre ++ dep :: post) →
  dependencies_loop a pre [] s = Ok ((true, None), s1) →
  unresolvable s1 dep →
  dependencies a s
    = Ok ((false, Some (unresolved_message (Dependency.parent dep))), s1)
  ∧ workflow s1 = workflow s
  ∧ ∃ action1,
      heap s1 !! a = Some action1
      ∧ deploy_loop (a :: rest) count s =
          Ok (count,
              set_heap
                (<[a := Action.set_error_message
                          (Some (unresolved_message (Dependency.parent dep)))
                          (Action.set_action_state (Some FAILED_DEPENDENCIES) action1)]>
                   (heap s1)) s1)
      ∧ (Workflow.actions (workflow s) = a :: rest →
         deploy s =
           Ok (tt,
               set_heap
                 (<[a := Action.set_error_message
                           (Some (unresolved_message (Dependency.parent dep)))
                           (Action.set_action_state (Some FAILED_DEPENDENCIES) action1)]>
                    (heap s1)) s1)).
Proof.
  intros Ha Hst Hdeps Hpre Hun.
  assert (dependencies a s
    = Ok ((false, Some (unresolved_message (Dependency.parent dep))), s1)) as Hres.
  { unfold dependencies. mrun.
    rewrite bool_decide_eq_false_2 by congruence.
    rewrite Hdeps. simpl. by apply dependencies_loop_stops_at_unresolvable. }
  destruct (dependencies_loop_only_changes _ _ _ _ _ _ Hpre) as (Hw & _ & _ & Hal).
  destruct Hal as [action1 Ha1]; [by eauto|].
  split; [exact Hres|]. split; [exact Hw|].
  exists action1. split; [exact Ha1|].
  assert (deploy_step a s =
    Ok (Break,
        set_heap
          (<[a := Action.set_error_message
                    (Some (unresolved_message (Dependency.parent dep)))
                    (Action.set_action_state (Some FAILED_DEPENDENCIES) action1)]>
             (heap s1)) s1)) as Hstep.
  { unfold deploy_step.
    rewrite (bind_run _ _ _ _ _ Hres). cbv beta iota.
    rewrite unresolved_message_truthy.
    repeat mrun. unfold set_heap; simpl. by rewrite insert_insert_eq. }
  split.
  - rewrite deploy_loop_cons. by rewrite (bind_run _ _ _ _ _ Hstep).
  - intros Hhead. unfold deploy. mrun. rewrite Hhead, deploy_loop_cons.
    erewrite bind_run; [|by rewrite (bind_run _ _ _ _ _ Hstep)].
    unfold modify. cbn [drop]. f_equal. f_equal.
    apply (set_actions_same
             (set_heap (<[a := Action.set_error_message
                          (Some (unresolved_message (Dependency.parent dep)))
                          (Action.set_action_state (Some FAILED_DEPENDENCIES) action1)]>
                          (heap s1)) s1)).
Qed.

(** *** The pass on a workflow without [COMPLETED] pending actions *)

Lemma deploy_loop_keeps_actions actions count :
  preserves (λ s s' : State E,
               Workflow.actions (workflow s') = Workflow.actions (workflow s))
            (deploy_loop actions count).
Proof.
  revert count. induction actions as [|a rest IH]; intros count s n s' H.
  - by inversion H.
  - rewrite deploy_loop_cons in H. apply bind_Ok in H as (flow & s1 & Hstep & H).
    apply deploy_step_pending_frame in Hstep as [Hact _].
    destruct flow.
    + inversion H; by subst.
    + apply IH in H. congruence.
    + apply IH in H. congruence.
Qed.

(** The loop of [deploy] on distinct pending actions none of which is
    [COMPLETED]: a prefix [done] is promoted, action by action, and the
    loop ends either at the end of the list or with a [break] on the
    action that follows the prefix; [count] has grown by the length of
    the prefix. *)
Lemma deploy_loop_partition actions count (s s' : State E) n :
  NoDup actions →
  (∀ a, a ∈ actions →
        ∃ action, heap s !! a = Some action
                  ∧ Action.action_state action ≠ Some COMPLETED) →
  deploy_loop actions count s = Ok (n, s') →
  ∃ done rest s_mid,
    actions = done ++ rest
    ∧ n = count + length done
    ∧ promoted_prefix s done s_mid
    ∧ match rest with
      | [] => s' = s_mid
      | a :: _ => deploy_step a s_mid = Ok (Break, s')
      end.
Proof.
  revert count s. induction actions as [|a rest IH]; intros count s Hnd Hpend H.
  - inversion H; subst. exists [], [], s'. repeat split; [simpl; lia | constructor].
  - rewrite deploy_loop_cons in H. apply bind_Ok in H as (flow & s1 & Hstep & H).
    destruct (Hpend a) as (action & Ha & Hst); [apply list_elem_of_here|].
    destruct flow.
    + inversion H; subst. exists [], (a :: rest), s.
      repeat split; [simpl; lia | constructor | done].
    + by apply (deploy_step_continue _ _ _ _ Ha) in Hstep.
    + apply NoDup_cons in Hnd as [Hnotin Hnd].
      destruct (IH (S count) s1 Hnd) as (done & rest' & s_mid & -> & -> & Hrun & Hend);
        [|exact H|].
      { intros b Hb. destruct (Hpend b) as (action_b & Hb' & Hstb);
          [by apply list_elem_of_further|].
        exists action_b. split; [|done].
        apply deploy_step_pending_frame in Hstep as [_ Hheap].
        rewrite Hheap; [done|]. intros ->. done. }
      exists (a :: done), rest', s_mid.
      repeat split; [simpl; lia | by econstructor | done].
Qed.

(** X20: the post-condition of [deploy] on a workflow whose pending
    actions are distinct and none [COMPLETED], whenever [deploy] returns: [actions] splits into the promoted prefix and the remainder;
    the remainder is what [workflow.actions] holds afterwards; its head,
    if any, is the action on which the pass stopped, in the state that
    iteration left it in. *)
Lemma deploy_partitions_pending_actions (s s' : State E) :
  NoDup (Workflow.actions (workflow s)) →
  (∀ a, a ∈ Workflow.actions (workflow s) →
        ∃ action, heap s !! a = Some action
                  ∧ Action.action_state action ≠ Some COMPLETED) →
  deploy s = Ok (tt, s') →
  ∃ done rest s_mid s_end,
    Workflow.actions (workflow s) = done ++ rest
    ∧ promoted_prefix s done s_mid
    ∧ match rest with
      | [] => s_end = s_mid
      | a :: _ => deploy_step a s_mid = Ok (Break, s_end)
      end
    ∧ s' = set_workflow (Workflow.set_actions rest (workflow s_end)) s_end.
Proof.
  intros Hnd Hpend H. unfold deploy in H.
  apply bind_Ok in H as (s0 & s0' & [= <- <-] & H).
  apply bind_Ok in H as (n & s_end & Hloop & H).
  pose proof (deploy_loop_keeps_actions _ _ _ _ _ Hloop) as Hact.
  destruct (deploy_loop_partition _ _ _ _ _ Hnd Hpend Hloop)
    as (done & rest & s_mid & Hsplit & -> & Hrun & Hend).
  exists done, rest, s_mid, s_end. split; [done|]. split; [done|]. split; [done|].
  inversion H; subst. rewrite Hact, Hsplit. simpl.
  by rewrite drop_app_length.
Qed.

End DriverFacts.

(** The scenario of [tests/test_workflow.py], with its assertions. *)
Example test_workflow_replay :
  ∃ s1 s2 s3 s4,
    test_run 1 = Ok s1 ∧ test_run 2 = Ok s2 ∧ test_run 3 = Ok s3 ∧ test_run 4 = Ok s4
    ∧ size (Workflow.completed (workflow s1)) = 0
    ∧ (Action.action_state <$> (head (Workflow.actions (workflow s1)) ≫= (heap s1 !!.)))
        = Some (Some FAILED_COMPLETE)
    ∧ size (Workflow.completed (workflow s2)) = 2
    ∧ (Action.action_state <$> (head (Workflow.actions (workflow s2)) ≫= (heap s2 !!.)))
        = Some (Some FAILED_COMPILE)
    ∧ size (Workflow.completed (workflow s3)) = 2
    ∧ (Action.action_state <$> (head (Workflow.actions (workflow s3)) ≫= (heap s3 !!.)))
        = Some (Some FAILED_COMPLETE)
    ∧ size (Workflow.completed (workflow s4)) = 4
    ∧ (Action.action_state <$>
         (Workflow.completed (workflow s4) !! Some "SIMBAProxy" ≫= (heap s4 !!.)))
        = Some (Some COMPLETED)
    ∧ Workflow.actions (workflow s4) = [].
Proof.
  do 4 eexists.
  split; [vm_compute; reflexivity|]. split; [vm_compute; reflexivity|].
  split; [vm_compute; reflexivity|]. split; [vm_compute; reflexivity|].
  repeat split; vm_compute; reflexivity.
Qed.

(** ** The validator *)

Lemma check_deps_parents deps previous got got' :
  check_deps deps previous got = Ok got' →
  ∀ d, d ∈ deps → Dependency.parent d ≠ "" → Some (Dependency.parent d) ∈ previous.
Proof.
  revert got. induction deps as [|dep rest IH]; intros got Hok d Hd Hne.
  - by apply elem_of_nil in Hd.
  - simpl in Hok.
    destruct (negb (String.eqb (Dependency.parent dep) "")) eqn:Htruthy; simpl in Hok.
    + destruct (bool_decide (Some (Dependency.parent dep) ∈ previous)) eqn:Hin;
        simpl in Hok; [|discriminate].
      apply elem_of_cons in Hd as [-> | Hd].
      * by apply bool_decide_eq_true in Hin.
      * by eapply IH.
    + apply elem_of_cons in Hd as [-> | Hd].
      * apply negb_false_iff, String.eqb_eq in Htruthy. done.
      * by eapply IH.
Qed.

Lemma check_loop_parents actions i previous :
  check_loop i actions previous = Ok tt →
  ∀ k a d,
    actions !! k = Some a →
    d ∈ default [] (Action.dependencies a) →
    Dependency.parent d ≠ "" →
    Some (Dependency.parent d) ∈ previous ++ (Action.contract_name <$> take k actions).
Proof.
  revert i previous. induction actions as [|action rest IH]; intros i previous Hok k a d Hk Hd Hne.
  - done.
  - simpl in Hok.
    destruct (Nat.eqb i 0 && truthy_list (Action.dependencies action)); [discriminate|].
    unfold result_bind in Hok.
    destruct (if truthy_list (Action.dependencies action)
              then check_deps (default [] (Action.dependencies action)) previous false
              else Ok false) as [got|] eqn:Hdeps; [|discriminate].
    destruct (bool_decide (Action.action_type action = DEPLOY_PROXY) && negb got);
      [discriminate|].
    destruct k as [|k]; simpl in Hk.
    + injection Hk as ->. simpl. rewrite app_nil_r.
      destruct (Action.dependencies a) as [[|d0 ds]|]; simpl in Hd, Hdeps.
      * by apply elem_of_nil in Hd.
      * exact (check_deps_parents (d0 :: ds) previous false got Hdeps d Hd Hne).
      * by apply elem_of_nil in Hd.
    + specialize (IH _ _ Hok k a d Hk Hd Hne).
      simpl. by rewrite <- app_assoc in IH.
Qed.

(** C8 (amended): in a plan accepted by [Workflow.check], every
    dependency whose [parent] is not the empty string names the
    [contract_name] of an action at a strictly smaller index. *)
Theorem validated_parents_are_defined_earlier (actions : list Action.t) :
  check actions = Ok tt →
  ∀ i a d,
    actions !! i = Some a →
    d ∈ default [] (Action.dependencies a) →
    Dependency.parent d ≠ "" →
    ∃ j b, j < i ∧ actions !! j = Some b
           ∧ Action.contract_name b = Some (Dependency.parent d).
Proof.
  intros Hok i a d Hi Hd Hne.
  assert (check_loop 0 actions [] = Ok tt) as Hloop by (by destruct actions).
  pose proof (check_loop_parents _ _ _ Hloop i a d Hi Hd Hne) as Hin.
  simpl in Hin. apply list_elem_of_fmap in Hin as (b & Hname & Hb).
  apply list_elem_of_lookup in Hb as (j & Hj).
  apply lookup_take_Some in Hj as (Hj & Hlt).
  exists j, b. by repeat split.
Qed.

(** C8 (amended) on the plan of the test suite: the proxy's parent
    [MyNft] is defined before it. *)
Lemma validated_parents_are_defined_earlier_witness :
  check test_plan = Ok tt
  ∧ ∃ j b, j < 3 ∧ test_plan !! j = Some b ∧ Action.contract_name b = Some "MyNft".
Proof.
  split; [reflexivity|].
  apply (validated_parents_are_defined_earlier test_plan eq_refl 3
           (Action.mk DEPLOY_PROXY None None
              (Some [Dependency.mk IMPL "MyNft" None (Some "initialize")
                       (Some [(Some "name", VStr "My NFT"); (Some "symbol", VStr "MNT")])])
              (Some "my-proxy") None (Some INITED) None None (Some true) None None None)
           (Dependency.mk IMPL "MyNft" None (Some "initialize")
              (Some [(Some "name", VStr "My NFT"); (Some "symbol", VStr "MNT")]))).
  - reflexivity.
  - simpl. apply list_elem_of_here.
  - discriminate.
Defined.

(** C8 as stated fails: a dependency whose [parent] is the empty string is
    not checked, so the plan below is accepted although no action is
    named by that parent. *)
Lemma empty_parent_is_accepted :
  Forall (λ a, check_by_type a = Ok tt) empty_parent_plan
  ∧ check empty_parent_plan = Ok tt
  ∧ ¬ (∀ i a d,
         empty_parent_plan !! i = Some a →
         d ∈ default [] (Action.dependencies a) →
         ∃ j b, j < i ∧ empty_parent_plan !! j = Some b
                ∧ Action.contract_name b = Some (Dependency.parent d)).
Proof.
  split; [by repeat constructor|]. split; [reflexivity|].
  intros H.
  destruct (H 1 _ (Dependency.mk LIBRARY "" None None None) eq_refl)
    as (j & b & Hlt & Hj & Hname).
  - simpl. apply list_elem_of_here.
  - destruct j as [|j]; [|lia]. simpl in Hj. injection Hj as <-. discriminate.
Qed.

(** ** Concrete runs *)

(** C1 (as the code has it): a pending action that is already
    [COMPLETED] is skipped without being counted, so the slice
    [actions[count:]] drops it and keeps the action that was promoted.
    Here action 1 ("B") is handled with [carry_on=True] and inserted into
    [completed], yet it is still the head of [actions]; action 0 ("A") is
    removed from [actions] although no handler ran on it, and it is not in
    [completed]. *)
Theorem completed_pending_action_shifts_the_slice :
  ∃ s',
    deploy (exe:=TestExecutor) completed_pending_state = Ok (tt, s')
    ∧ Workflow.actions (workflow s') = [1]
    ∧ Workflow.completed (workflow s') = {[ Some "B" := 1 ]}
    ∧ (Action.action_state <$> heap s' !! 1) = Some (Some COMPLETED)
    ∧ calls (world s') =
        [CallDeployLibrary "MyOrg" (Some "B") (Some "library B {}") "Quorum" "myApp"
           (Some true)].
Proof.
  eexists. split; [vm_compute; reflexivity|].
  repeat split; vm_compute; reflexivity.
Qed.

(** C4 (as the code has it): the first pass of [proxy_plan] fails in
    [set_proxy] and leaves the proxy action in [FAILED_SET_PROXY]; on the
    second pass [set_proxy] succeeds, the handler returns
    [carry_on=True] and the driver promotes the action, whose state is
    still [FAILED_SET_PROXY], not [COMPLETED]. *)
Theorem retried_proxy_is_promoted_in_failed_state :
  ∃ s1 s2,
    proxy_run 1 = Ok s1
    ∧ Workflow.actions (workflow s1) = [1]
    ∧ (Action.action_state <$> heap s1 !! 1) = Some (Some FAILED_SET_PROXY)
    ∧ deploy (exe:=ProxyFailsOnce) s1 = Ok (tt, s2)
    ∧ Workflow.actions (workflow s2) = []
    ∧ Workflow.completed (workflow s2) !! Some "SIMBAProxy" = Some 1
    ∧ (Action.action_state <$> heap s2 !! 1) = Some (Some FAILED_SET_PROXY)
    ∧ calls (world s2) = calls (world s1) ++
        [CallSetProxy (workflow s1) (heap s1 !! 1 ≫= Action.contract)
           (heap s1 !! 1 ≫= Action.impl_contract)].
Proof.
  do 2 eexists. split; [vm_compute; reflexivity|].
  split; [vm_compute; reflexivity|]. split; [vm_compute; reflexivity|].
  split; [vm_compute; reflexivity|].
  repeat split; vm_compute; reflexivity.
Qed.

(** C6 (as the code has it): [deploy] raises on validated workflows.  A
    [METHOD_CALL] action without a contract record raises
    [AttributeError] in [handle_methodcall]; a [CONSTRUCTOR] dependency on
    an action without [args] raises [TypeError] in the resolver.  Neither
    is recorded on the action. *)
Theorem deploy_raises_on_validated_workflows :
  (∃ s, new_workflow "myApp" "MyOrg" "Quorum" None method_call_plan 0 = Ok s
        ∧ deploy (exe:=TestExecutor) s = Raise AttributeError)
  ∧ (∃ s, new_workflow "myApp" "MyOrg" "Quorum" None constructor_plan 0 = Ok s
          ∧ deploy (exe:=TestExecutor) s = Raise TypeError).
Proof.
  split; eexists; (split; [vm_compute; reflexivity|]); vm_compute; reflexivity.
Qed.

(** C3 as stated fails: a retry from [FAILED_COMPLETE] whose contract
    carries a [design_id], the empty string, is compiled again. *)
Lemma empty_design_id_is_compiled_again :
  ∃ r w',
    handle_deploy_contract (exe:=TestExecutor) empty_design_id_action
      test_workflow_value (mkWorld 0 []) = Ok (r, w')
    ∧ existsb is_compile_call (calls w') = true
    ∧ (∃ contract, Action.contract empty_design_id_action = Some contract
                   ∧ Contract.design_id contract = Some "")
    ∧ Action.action_state empty_design_id_action = Some FAILED_COMPLETE
    ∧ ¬ (Action.contract empty_design_id_action = None
         ∨ (∃ contract, Action.contract empty_design_id_action = Some contract
                        ∧ Contract.design_id contract = None)
         ∨ Action.action_state empty_design_id_action = Some FAILED_COMPILE).
Proof.
  do 2 eexists. split; [vm_compute; reflexivity|].
  split; [reflexivity|]. split; [by eexists|]. split; [reflexivity|].
  intros [H | [(c & [= <-] & H) | H]]; discriminate.
Qed.

(** C3 (amended) on two runs.  A retry from [FAILED_COMPLETE] with
    [design_id] [3] under the executor of the test suite returns: its one
    call is [deploy_contract] and the condition of the compile phase does
    not hold.  The same retry with the empty [design_id] under
    [SimbaExecutor] raises: [compile_contract] is called, and it is the
    one that raises. *)
Lemma compile_contract_called_iff_witness :
  (∃ r w',
     handle_deploy_contract (exe:=TestExecutor) failed_complete_action
       test_workflow_value (mkWorld 0 []) = Ok (r, w')
     ∧ calls w' = [] ++
         [CallDeployContract (Some compiled_contract) (Some "my-api") "Quorum" None None
            "myApp"]
     ∧ ¬ (Action.contract failed_complete_action = None
          ∨ (∃ contract, Action.contract failed_complete_action = Some contract
               ∧ (Contract.design_id contract = None
                  ∨ Contract.design_id contract = Some ""))
          ∨ Action.action_state failed_complete_action = Some FAILED_COMPILE))
  ∧ handle_deploy_contract
      (exe:=SimbaExecutor (platform:=TimeoutPlatform)
              (deploy_library (Executor:=TestExecutor)))
      empty_design_id_action test_workflow_value (mkWorld 0 []) = Raise TypeError.
Proof.
  split.
  - destruct (compile_contract_called_iff (exe:=TestExecutor) failed_complete_action
                test_workflow_value (mkWorld 0 [])) as (_ & Hlog & Hretry).
    destruct (Hretry compiled_contract "3" eq_refl eq_refl eq_refl ltac:(discriminate))
      as [r Hr].
    eexists r, _. split; [exact Hr|]. split; [reflexivity|].
    intros Hguard. edestruct (Hlog r) as (new & Hnew & Hiff); [exact Hr|].
    simpl in Hnew. subst new. apply Hiff in Hguard. discriminate Hguard.
  - destruct (compile_contract_called_iff (exe:=TestExecutor) empty_design_id_action
                test_workflow_value (mkWorld 0 [])) as ([_ Hraise] & _).
    apply Hraise; [|reflexivity].
    right; left. eexists. split; [reflexivity|]. by right.
Defined.

(** C2 on the third pass of the test suite, where [deploy_contract]
    fails. *)
Lemma deploy_failure_clears_error_message_witness :
  ∃ action' w',
    handle_deploy_contract (exe:=TestExecutor) failed_complete_action
      test_workflow_value (mkWorld 3 []) = Ok ((action', false), w')
    ∧ Action.action_state action' = Some FAILED_COMPLETE
    ∧ Action.error_message action' = None
    ∧ Action.error_message action' ≠ Some "Could not deploy contract".
Proof.
  exact (deploy_failure_clears_error_message (exe:=TestExecutor) failed_complete_action
           test_workflow_value (mkWorld 3 []) None (Some "Could not deploy contract") 3
           eq_refl eq_refl eq_refl).
Defined.

(** C7 on the second action of [constructor_plan]. *)
Lemma constructor_dependency_without_args_raises_witness :
  resolve_dep (web3:=EchoWeb3) 1 (Dependency.mk CONSTRUCTOR "L" (Some "lib") None None)
    [] constructor_state = Raise TypeError.
Proof.
  apply (constructor_dependency_without_args_raises (web3:=EchoWeb3) constructor_state 1
           (Action.mk DEPLOY_CONTRACT (Some "C") (Some "contract C {}")
              (Some [Dependency.mk CONSTRUCTOR "L" (Some "lib") None None])
              (Some "c-api") None (Some INITED) None None (Some true) None None None)
           (Dependency.mk CONSTRUCTOR "L" (Some "lib") None None) [] 0
           (Action.mk DEPLOY_LIBRARY (Some "L") (Some "library L {}") None None None
              (Some COMPLETED) (Some deployed_library) None (Some true) None None None)
           deployed_library); reflexivity.
Defined.

(** C10 on an action with a seeded contract and a library map. *)
Lemma dependencies_without_deps_is_identity_witness :
  dependencies (web3:=EchoWeb3) 0 seeded_state = Ok ((true, None), seeded_state)
  ∧ (Action.contract <$> heap seeded_state !! 0) = Some (Some deployed_impl)
  ∧ (Action.libraries <$> heap seeded_state !! 0) = Some (Some [(Some "L", VStr "0x1")]).
Proof.
  split; [|split; reflexivity].
  apply (dependencies_without_deps_is_identity (web3:=EchoWeb3) seeded_state 0
           seeded_action).
  - reflexivity.
  - discriminate.
  - right. reflexivity.
Defined.


(** C5 as stated fails: on an action that is [COMPLETED] the resolver
    returns [(False, None)] before it looks at the dependencies, and the
    driver leaves the action's state alone. *)
Lemma completed_action_with_orphan_dependency :
  (∃ dep, Action.dependencies (orphan_action COMPLETED) = Some [dep]
          ∧ Workflow.completed (workflow (orphan_state COMPLETED))
              !! Some (Dependency.parent dep) = None)
  ∧ dependencies (web3:=EchoWeb3) 0 (orphan_state COMPLETED)
      = Ok ((false, None), orphan_state COMPLETED)
  ∧ dependencies (web3:=EchoWeb3) 0 (orphan_state COMPLETED)
      ≠ Ok ((false, Some (unresolved_message "L")), orphan_state COMPLETED)
  ∧ ∃ s', deploy (web3:=EchoWeb3) (exe:=TestExecutor) (orphan_state COMPLETED)
            = Ok (tt, s')
          ∧ (Action.action_state <$> heap s' !! 0) = Some (Some COMPLETED)
          ∧ (Action.action_state <$> heap s' !! 0) ≠ Some (Some FAILED_DEPENDENCIES).
Proof.
  split; [eexists; split; reflexivity|].
  split; [reflexivity|]. split; [discriminate|].
  eexists. split; [vm_compute; reflexivity|]. split; [reflexivity|discriminate].
Qed.

(** C5 (amended) on a pending action whose parent was never completed. *)
Lemma unresolved_dependency_stops_the_pass_witness :
  dependencies (web3:=EchoWeb3) 0 (orphan_state INITED)
    = Ok ((false, Some "Dependency on contract L cannot be resolved"),
          orphan_state INITED)
  ∧ workflow (orphan_state INITED) = workflow (orphan_state INITED)
  ∧ ∃ action1,
      heap (orphan_state INITED) !! 0 = Some action1
      ∧ deploy_loop (web3:=EchoWeb3) (exe:=TestExecutor) [0] 0 (orphan_state INITED) =
          Ok (0,
              set_heap
                (<[0 := Action.set_error_message
                          (Some "Dependency on contract L cannot be resolved")
                          (Action.set_action_state (Some FAILED_DEPENDENCIES) action1)]>
                   (heap (orphan_state INITED))) (orphan_state INITED))
      ∧ (Workflow.actions (workflow (orphan_state INITED)) = [0] →
         deploy (web3:=EchoWeb3) (exe:=TestExecutor) (orphan_state INITED) =
           Ok (tt,
               set_heap
                 (<[0 := Action.set_error_message
                           (Some "Dependency on contract L cannot be resolved")
                           (Action.set_action_state (Some FAILED_DEPENDENCIES) action1)]>
                    (heap (orphan_state INITED))) (orphan_state INITED))).
Proof.
  apply (unresolved_dependency_stops_the_pass (web3:=EchoWeb3) (exe:=TestExecutor)
           (orphan_state INITED) (orphan_state INITED) 0 (orphan_action INITED) []
           (Dependency.mk LIBRARY "L" None None None) [] [] 0).
  - reflexivity.
  - discriminate.
  - reflexivity.
  - reflexivity.
  - left. reflexivity.
Defined.

(** * Further properties of the module *)

(** ** The validators, characterised *)

Lemma check_deps_iff deps previous got got' :
  check_deps deps previous got = Ok got' ↔
    (∀ d, d ∈ deps → Dependency.parent d ≠ "" → Some (Dependency.parent d) ∈ previous)
    ∧ got' = (got || existsb (λ d, bool_decide (Dependency.dependency_type d = IMPL)) deps).
Proof.
  revert got. induction deps as [|dep rest IH]; intros got; simpl.
  - rewrite orb_false_r. split.
    + intros [= ->]. split; [|done]. intros d Hd. by apply elem_of_nil in Hd.
    + by intros [_ ->].
  - destruct (negb (String.eqb (Dependency.parent dep) "")) eqn:Htruthy; simpl.
    + destruct (bool_decide (Some (Dependency.parent dep) ∈ previous)) eqn:Hin; simpl.
      * rewrite IH. apply bool_decide_eq_true in Hin.
        split; intros [Hall ->]; (split; [|by destruct got, (bool_decide _)]).
        -- intros d [-> | Hd]%elem_of_cons; auto.
        -- intros d Hd. apply Hall. by apply list_elem_of_further.
      * apply bool_decide_eq_false in Hin. split; [done|].
        intros [Hall _]. exfalso. apply Hin, Hall; [apply list_elem_of_here|].
        apply negb_true_iff, String.eqb_neq in Htruthy. done.
    + rewrite IH. apply negb_false_iff, String.eqb_eq in Htruthy.
      split; intros [Hall ->]; (split; [|by destruct got, (bool_decide _)]).
      * intros d [-> | Hd]%elem_of_cons; [done | auto].
      * intros d Hd. apply Hall. by apply list_elem_of_further.
Qed.

Lemma check_deps_guard (deps : option (list Dependency.t)) previous :
  (if truthy_list deps then check_deps (default [] deps) previous false else Ok false)
  = check_deps (default [] deps) previous false.
Proof. by destruct deps as [[|]|]. Qed.

Lemma check_loop_iff actions i previous :
  check_loop i actions previous = Ok tt ↔
    (i = 0 → ∀ a, actions !! 0 = Some a → default [] (Action.dependencies a) = [])
    ∧ (∀ k a d,
         actions !! k = Some a → d ∈ default [] (Action.dependencies a) →
         Dependency.parent d ≠ "" →
         Some (Dependency.parent d)
           ∈ previous ++ (Action.contract_name <$> take k actions))
    ∧ (∀ a, a ∈ actions → Action.action_type a = DEPLOY_PROXY →
            ∃ d, d ∈ default [] (Action.dependencies a)
                 ∧ Dependency.dependency_type d = IMPL).
Proof.
  revert i previous. induction actions as [|action rest IH]; intros i previous; simpl.
  - split; [|done]. intros _. repeat split.
    + intros _ a Ha. done.
    + intros k a d Hk. done.
    + intros a Ha. by apply elem_of_nil in Ha.
  - assert (truthy_list (Action.dependencies action) = false ↔
            default [] (Action.dependencies action) = []) as Hempty.
    { by destruct (Action.dependencies action) as [[|]|]. }
    split.
    + intros H.
      destruct (Nat.eqb i 0 && truthy_list (Action.dependencies action)) eqn:Hfirst;
        [discriminate|].
      unfold result_bind in H. rewrite check_deps_guard in H.
      destruct (check_deps (default [] (Action.dependencies action)) previous false)
        as [got|] eqn:Hgot; [|discriminate].
      apply check_deps_iff in Hgot as [Hparents ->]. simpl in H.
      destruct (bool_decide (Action.action_type action = DEPLOY_PROXY)
                && negb (existsb _ _)) eqn:Hproxy; [discriminate|].
      apply IH in H as (_ & Hrest & Hprox).
      split; [|split].
      * intros -> a [= <-]. apply Hempty.
        by destruct (truthy_list (Action.dependencies action)).
      * intros [|k] a d Hk Hd Hne; simpl in Hk.
        -- injection Hk as <-. simpl. rewrite app_nil_r. by apply Hparents.
        -- simpl. specialize (Hrest k a d Hk Hd Hne).
           by rewrite <- app_assoc in Hrest.
      * intros a [-> | Ha]%elem_of_cons Hty; [|by apply Hprox].
        rewrite bool_decide_eq_true_2 in Hproxy by done. simpl in Hproxy.
        apply negb_false_iff, existsb_exists in Hproxy as (d & Hd & Himpl).
        exists d. split; [by apply list_elem_of_In | by apply bool_decide_eq_true in Himpl].
    + intros (Hfirst & Hparents & Hprox).
      assert (Nat.eqb i 0 && truthy_list (Action.dependencies action) = false) as ->.
      { destruct (Nat.eqb i 0) eqn:Hi; [|done]. apply Nat.eqb_eq in Hi. simpl.
        apply Hempty. by apply Hfirst. }
      assert (check_deps (default [] (Action.dependencies action)) previous false
              = Ok (existsb (λ d, bool_decide (Dependency.dependency_type d = IMPL))
                      (default [] (Action.dependencies action)))) as Hgot.
      { apply check_deps_iff. split; [|done]. intros d Hd Hne.
        specialize (Hparents 0 action d eq_refl Hd Hne). simpl in Hparents.
        by rewrite app_nil_r in Hparents. }
      rewrite check_deps_guard, Hgot. simpl.
      assert (bool_decide (Action.action_type action = DEPLOY_PROXY)
              && negb (existsb (λ d, bool_decide (Dependency.dependency_type d = IMPL))
                         (default [] (Action.dependencies action))) = false) as ->.
      { destruct (bool_decide (Action.action_type action = DEPLOY_PROXY)) eqn:Hty; [|done].
        apply bool_decide_eq_true in Hty. simpl. apply negb_false_iff, existsb_exists.
        destruct (Hprox action (list_elem_of_here _ _) Hty) as (d & Hd & Himpl).
        exists d. split; [by apply list_elem_of_In | by apply bool_decide_eq_true]. }
      apply IH. split; [done|]. split.
      * intros k a d Hk Hd Hne. specialize (Hparents (S k) a d Hk Hd Hne).
        simpl in Hparents. by rewrite <- app_assoc.
      * intros a Ha. apply Hprox. by apply list_elem_of_further.
Qed.

(** X1: [Workflow.check] accepts a plan exactly when the plan is not
    empty, its first action has no dependencies, every dependency with a
    non-empty [parent] names the [contract_name] of an earlier action,
    and every [DEPLOY_PROXY] action has an [IMPL] dependency. *)
Theorem check_accepts_iff (actions : list Action.t) :
  check actions = Ok tt ↔
    actions ≠ []
    ∧ (∀ a, actions !! 0 = Some a → default [] (Action.dependencies a) = [])
    ∧ (∀ i a d,
         actions !! i = Some a → d ∈ default [] (Action.dependencies a) →
         Dependency.parent d ≠ "" →
         Some (Dependency.parent d) ∈ (Action.contract_name <$> take i actions))
    ∧ (∀ a, a ∈ actions → Action.action_type a = DEPLOY_PROXY →
            ∃ d, d ∈ default [] (Action.dependencies a)
                 ∧ Dependency.dependency_type d = IMPL).
Proof.
  destruct actions as [|action rest].
  - split; [done|]. by intros [? _].
  - change (check (action :: rest)) with (check_loop 0 (action :: rest) []).
    rewrite check_loop_iff. split.
    + intros (Hfirst & Hparents & Hprox). split; [done|]. split; [by apply Hfirst|].
      split; [|done]. intros i a d Hi Hd Hne. by apply (Hparents i a d).
    + intros (_ & Hfirst & Hparents & Hprox). split; [done|]. split; [|done].
      intros k a d Hk Hd Hne. by apply (Hparents k a d).
Qed.

(** X2: [Action.check_by_type] accepts an action exactly when the fields
    required for its type are neither [None] nor empty: [contract_name]
    and [code] for a library, these and [api_name] for a contract,
    [method_name] and [api_name] for a method call, [api_name] alone for
    a proxy.  Every rejection is a [ValueError]. *)
Theorem check_by_type_accepts_iff (values : Action.t) :
  (check_by_type values = Ok tt ↔
     match Action.action_type values with
     | DEPLOY_LIBRARY =>
         truthy_str (Action.contract_name values) = true
         ∧ truthy_str (Action.code values) = true
     | DEPLOY_CONTRACT =>
         truthy_str (Action.contract_name values) = true
         ∧ truthy_str (Action.code values) = true
         ∧ truthy_str (Action.api_name values) = true
     | METHOD_CALL =>
         truthy_str (Action.method_name values) = true
         ∧ truthy_str (Action.api_name values) = true
     | DEPLOY_PROXY => truthy_str (Action.api_name values) = true
     end)
  ∧ (check_by_type values = Ok tt ∨ ∃ msg, check_by_type values = Raise (ValueError msg)).
Proof.
  unfold check_by_type.
  destruct (Action.action_type values); simpl; unfold field_truthy; simpl;
    repeat match goal with
           | |- context [truthy_str ?o] => destruct (truthy_str o); simpl
           end;
    (split; [split; [try done; by repeat split | try done; intros; by intuition]
            | first [by left | right; by eexists]]).
Qed.

(** ** The handlers, outcome by outcome *)

Section HandlerOutcomes.
Context {E : Type} {exe : Executor E}.

(** X3: [handle_deploy_library] makes exactly one [deploy_library] call,
    whether or not the action already carries a contract, and returns
    either [carry_on=True] with state [COMPLETED], the returned contract
    and no error message, or [carry_on=False] with state
    [FAILED_COMPLETE], the error recorded and the contract untouched.
    The state [INVALID_STATE] it assigns on entry never survives. *)
Theorem handle_deploy_library_outcome action wf (w : World E) action' carry_on w' :
  handle_deploy_library action wf w = Ok ((action', carry_on), w') →
  calls w' = calls w ++
    [CallDeployLibrary (Workflow.org wf) (Action.contract_name action)
       (Action.code action) (Workflow.blockchain wf) (Workflow.app_name wf)
       (Action.encode action)]
  ∧ same_inputs action action'
  ∧ Action.action_state action' ≠ Some INVALID_STATE
  ∧ ((carry_on = true
      ∧ Action.action_state action' = Some COMPLETED
      ∧ Action.error_message action' = None)
     ∨ (carry_on = false
        ∧ Action.action_state action' = Some FAILED_COMPLETE
        ∧ truthy_str (Action.error_message action') = true
        ∧ Action.contract action' = Action.contract action)).
Proof.
  unfold handle_deploy_library. intros H.
  apply bind_Ok in H as ([contract err] & w1 & Hinv & H).
  destruct (Action.contract action) as [c0|] eqn:Hc0; simpl in *;
    apply invoke_Ok in Hinv as (e' & _ & ->);
    destruct (truthy_str err) eqn:Herr; inversion H; subst; simpl;
    (split; [done|]); (split; [by repeat split|]); (split; [done|]);
    first [left; by repeat split | right; by repeat split].
Qed.

(** X4: [handle_methodcall] raises [AttributeError] when the action has
    no contract record.  Otherwise, when it returns, it has made exactly
    one [submit_transaction] call, on the [api_name] of the action's
    contract (not the action's own [api_name]); the outcome is
    [carry_on=True] with [COMPLETED] and no error message, or
    [carry_on=False] with [FAILED_METHOD_CALL] and the error recorded;
    the contract record is unchanged. *)
Theorem handle_methodcall_outcome action wf (w : World E) :
  (Action.contract action = None →
   handle_methodcall action wf w = Raise AttributeError)
  ∧ (∀ action' carry_on w',
       handle_methodcall action wf w = Ok ((action', carry_on), w') →
       ∃ contract,
         Action.contract action = Some contract
         ∧ calls w' = calls w ++
             [CallSubmitTransaction (Contract.api_name contract)
                (Action.method_name action) (Action.args action)]
         ∧ same_inputs action action'
         ∧ Action.contract action' = Some contract
         ∧ ((carry_on = true
             ∧ Action.action_state action' = Some COMPLETED
             ∧ Action.error_message action' = None)
            ∨ (carry_on = false
               ∧ Action.action_state action' = Some FAILED_METHOD_CALL
               ∧ truthy_str (Action.error_message action') = true))).
Proof.
  unfold handle_methodcall. split.
  - intros ->. reflexivity.
  - intros action' carry_on w' H.
    destruct (Action.contract action) as [contract|] eqn:Hc; [|done].
    exists contract. split; [done|].
    apply bind_Ok in H as (c & w0 & [= <- <-] & H).
    apply bind_Ok in H as ([txn err] & w1 & Hinv & H).
    apply invoke_Ok in Hinv as (e' & _ & ->).
    destruct (truthy_str err) eqn:Herr; inversion H; subst; simpl;
      (split; [done|]); (split; [by repeat split|]); (split; [done|]);
      first [left; by repeat split | right; by repeat split].
Qed.

Lemma deploy_phase_outcome contract action wf (w : World E) action' carry_on w' :
  deploy_phase contract action wf w = Ok ((action', carry_on), w') →
  same_inputs action action'
  ∧ ((carry_on = true
      ∧ Action.action_state action' = Some COMPLETED
      ∧ Action.error_message action' = Action.error_message action)
     ∨ (carry_on = false
        ∧ Action.action_state action' = Some FAILED_COMPLETE
        ∧ Action.error_message action' = None
        ∧ Action.contract action' = Action.contract action)).
Proof.
  unfold deploy_phase. intros H.
  apply bind_Ok in H as ([c err] & w1 & Hinv & H).
  apply invoke_Ok in Hinv as (e' & _ & ->).
  destruct (truthy_str err) eqn:Herr; inversion H; subst; simpl;
    (split; [by repeat split|]);
    first [left; by repeat split | right; by repeat split].
Qed.

Lemma handle_deploy_contract_states action wf (w : World E) action' carry_on w' :
  handle_deploy_contract action wf w = Ok ((action', carry_on), w') →
  same_inputs action action'
  ∧ ((carry_on = true ∧ Action.action_state action' = Some COMPLETED)
     ∨ (carry_on = false
        ∧ Action.action_state action' = Some FAILED_COMPILE
        ∧ truthy_str (Action.error_message action') = true
        ∧ Action.contract action' = Action.contract action
        ∧ calls w' = calls w ++
            [CallCompileContract (Action.contract_name action) (Action.code action)
               (Action.contract_name action) (Action.libraries action)
               (Action.encode action)])
     ∨ (carry_on = false
        ∧ Action.action_state action' = Some FAILED_COMPLETE
        ∧ Action.error_message action' = None)).
Proof.
  unfold handle_deploy_contract. intros H.
  destruct (needs_compile action).
  - apply bind_Ok in H as ([c err] & w1 & Hinv & H).
    apply invoke_Ok in Hinv as (e' & _ & ->).
    destruct (truthy_str err) eqn:Herr.
    + inversion H; subst; simpl. split; [by repeat split|].
      right; left; by repeat split.
    + apply deploy_phase_outcome in H as [Hsame Hout]. simpl in *.
      split; [by destruct Hsame as (?&?&?&?&?&?&?&?&?&?)|].
      destruct Hout as [(-> & ? & _) | (-> & ? & ? & _)];
        [left | right; right]; by repeat split.
  - apply deploy_phase_outcome in H as [Hsame Hout].
    split; [done|].
    destruct Hout as [(-> & ? & _) | (-> & ? & ? & _)];
      [left | right; right]; by repeat split.
Qed.


Lemma set_proxy_phase_outcome action wf (w : World E) action' carry_on w' :
  set_proxy_phase action wf w = Ok ((action', carry_on), w') →
  calls w' = calls w ++
    [CallSetProxy wf (Action.contract action) (Action.impl_contract action)]
  ∧ same_inputs action action'
  ∧ Action.contract action' = Action.contract action
  ∧ ((carry_on = true ∧ action' = action)
     ∨ (carry_on = false
        ∧ Action.action_state action' = Some FAILED_SET_PROXY
        ∧ truthy_str (Action.error_message action') = true)).
Proof.
  unfold set_proxy_phase. intros H.
  apply bind_Ok in H as ([msg err] & w1 & Hinv & H).
  apply invoke_Ok in Hinv as (e' & _ & ->).
  destruct (truthy_str err) eqn:Herr; inversion H; subst; simpl;
    (split; [done|]); (split; [by repeat split|]); (split; [done|]);
    first [left; by repeat split | right; by repeat split].
Qed.

(** X6: a retry of a proxy action entered in [FAILED_SET_PROXY] goes
    straight to the set-proxy phase: when the handler returns, the one
    Executor call it has made is [set_proxy], on the contract and the
    implementation the action carries; neither [compile_contract] nor
    [deploy_contract] is called. *)
Theorem proxy_retry_only_sets_proxy action wf (w : World E) action' carry_on w' :
  Action.action_state action = Some FAILED_SET_PROXY →
  handle_deploy_proxy action wf w = Ok ((action', carry_on), w') →
  calls w' = calls w ++
    [CallSetProxy wf (Action.contract action) (Action.impl_contract action)]
  ∧ Action.contract action' = Action.contract action.
Proof.
  intros Hst H. unfold handle_deploy_proxy in H. rewrite Hst in H. simpl in H.
  apply set_proxy_phase_outcome in H as (Hcalls & _ & Hc & _). done.
Qed.

(** X7: the outcomes of [handle_deploy_proxy].  With [carry_on=True]
    there are two cases: the action was entered in [FAILED_SET_PROXY] and
    is returned exactly as it was, its state included; or it was entered
    in another state and is returned [COMPLETED].  With [carry_on=False]
    the state is [FAILED_COMPILE], [FAILED_COMPLETE] or
    [FAILED_SET_PROXY].  On a first run the handler delegates to
    [handle_deploy_contract]: a failure there is returned as it is,
    without a [set_proxy] call; after a success [set_proxy] is the next
    and last call, made on the contract just deployed and the action's
    [impl_contract], and when it succeeds the action is returned as
    [handle_deploy_contract] left it. *)
Theorem handle_deploy_proxy_outcome action wf (w : World E) action' carry_on w' :
  handle_deploy_proxy action wf w = Ok ((action', carry_on), w') →
  same_inputs action action'
  ∧ (carry_on = true →
       (Action.action_state action ≠ Some FAILED_SET_PROXY
        ∧ Action.action_state action' = Some COMPLETED)
       ∨ (Action.action_state action = Some FAILED_SET_PROXY ∧ action' = action))
  ∧ (carry_on = false →
       Action.action_state action' = Some FAILED_COMPILE
       ∨ Action.action_state action' = Some FAILED_COMPLETE
       ∨ Action.action_state action' = Some FAILED_SET_PROXY)
  ∧ (Action.action_state action ≠ Some FAILED_SET_PROXY →
     ∃ action1 carry_on1 w1,
       handle_deploy_contract action wf w = Ok ((action1, carry_on1), w1)
       ∧ (carry_on1 = false → action' = action1 ∧ carry_on = false ∧ w' = w1)
       ∧ (carry_on1 = true →
            Action.action_state action1 = Some COMPLETED
            ∧ Action.contract action' = Action.contract action1
            ∧ (carry_on = true → action' = action1)
            ∧ calls w' = calls w1 ++
                [CallSetProxy wf (Action.contract action1)
                   (Action.impl_contract action)])).
Proof.
  unfold handle_deploy_proxy. intros H.
  destruct (bool_decide (Action.action_state action = Some FAILED_SET_PROXY)) eqn:Hst;
    simpl in H.
  - apply bool_decide_eq_true in Hst.
    apply set_proxy_phase_outcome in H as (Hcalls & Hsame & Hc & Hout).
    split; [done|]. split; [|split].
    + intros ->. destruct Hout as [[_ ->] | [[=] _]]. by right.
    + intros ->. destruct Hout as [[[=] _] | (_ & ? & _)]. by right; right.
    + done.
  - apply bool_decide_eq_false in Hst.
    apply bind_Ok in H as ([action1 c1] & w1 & Hdc & H).
    pose proof Hdc as Hdc'.
    apply handle_deploy_contract_states in Hdc' as (Hsame1 & Hout1).
    destruct c1; simpl in H.
    + apply set_proxy_phase_outcome in H as (Hcalls & Hsame2 & Hc2 & Hout2).
      destruct Hout1 as [[_ Hcompleted] | [([=] & _) | ([=] & _)]].
      assert (same_inputs action action') as Hsame.
      { destruct Hsame1 as (?&?&?&?&?&?&?&?&?&?), Hsame2 as (?&?&?&?&?&?&?&?&?&?).
        repeat split; congruence. }
      split; [done|]. split; [|split].
      * intros ->. destruct Hout2 as [[_ ->] | [[=] _]]. by left.
      * intros ->. destruct Hout2 as [[[=] _] | (_ & ? & _)]. by right; right.
      * intros _. exists action1, true, w1. split; [done|]. split; [done|].
        intros _. split; [done|]. split; [done|]. split.
        { intros ->. by destruct Hout2 as [[_ ->] | [[=] _]]. }
        destruct Hsame1 as (_&_&_&_&_&_&Himpl1&_). by rewrite <- Himpl1.
    + inversion H; subst. split; [done|]. split; [done|]. split.
      * intros _. destruct Hout1 as [[[=] _] | [(_ & ? & _) | (_ & ? & _)]];
          [by left | by right; left].
      * intros _. exists action', false, w'. split; [done|]. split; [done|]. done.
Qed.

Lemma handle_methodcall_states action wf (w : World E) contract action' carry_on w' :
  Action.contract action = Some contract →
  handle_methodcall action wf w = Ok ((action', carry_on), w') →
  calls w' = calls w ++
    [CallSubmitTransaction (Contract.api_name contract) (Action.method_name action)
       (Action.args action)]
  ∧ Action.contract action' = Some contract
  ∧ ((carry_on = true ∧ Action.action_state action' = Some COMPLETED)
     ∨ (carry_on = false ∧ Action.action_state action' = Some FAILED_METHOD_CALL)).
Proof.
  intros Hc H. unfold handle_methodcall in H. rewrite Hc in H.
  apply bind_Ok in H as (c & w0 & [= <- <-] & H).
  apply bind_Ok in H as ([txn err] & w1 & Hinv & H).
  apply invoke_Ok in Hinv as (e' & _ & ->).
  destruct (truthy_str err); inversion H; subst; simpl;
    (split; [done|]); (split; [done|]); [right | left]; done.
Qed.

End HandlerOutcomes.

(** X3 on a library that already carries a contract: it is deployed
    again. *)
Lemma handle_deploy_library_outcome_witness :
  ∃ action' carry_on w',
    handle_deploy_library (exe:=TestExecutor) redeployed_library test_workflow_value
      (mkWorld 0 []) = Ok ((action', carry_on), w')
    ∧ calls w' = [] ++
        [CallDeployLibrary "MyOrg" (Some "DataUri") (Some "hello world") "Quorum" "myApp"
           (Some true)]
    ∧ same_inputs redeployed_library action'
    ∧ Action.action_state action' ≠ Some INVALID_STATE
    ∧ ((carry_on = true
        ∧ Action.action_state action' = Some COMPLETED
        ∧ Action.error_message action' = None)
       ∨ (carry_on = false
          ∧ Action.action_state action' = Some FAILED_COMPLETE
          ∧ truthy_str (Action.error_message action') = true
          ∧ Action.contract action' = Action.contract redeployed_library)).
Proof.
  do 3 eexists. split; [vm_compute; reflexivity|].
  apply (handle_deploy_library_outcome (exe:=TestExecutor) redeployed_library
           test_workflow_value (mkWorld 0 [])). reflexivity.
Defined.

(** X4 on a method call with a seeded contract: the run returns, with
    one [submit_transaction] call on the [api_name] of that contract. *)
Lemma handle_methodcall_outcome_witness :
  ∃ action' carry_on w' contract,
    handle_methodcall (exe:=TestExecutor) seeded_action test_workflow_value (mkWorld 0 [])
      = Ok ((action', carry_on), w')
    ∧ Action.contract seeded_action = Some contract
    ∧ calls w' = [] ++
        [CallSubmitTransaction (Contract.api_name contract) (Some "mint") None]
    ∧ same_inputs seeded_action action'
    ∧ Action.contract action' = Some contract
    ∧ ((carry_on = true
        ∧ Action.action_state action' = Some COMPLETED
        ∧ Action.error_message action' = None)
       ∨ (carry_on = false
          ∧ Action.action_state action' = Some FAILED_METHOD_CALL
          ∧ truthy_str (Action.error_message action') = true)).
Proof.
  destruct (handle_methodcall (exe:=TestExecutor) seeded_action test_workflow_value
              (mkWorld 0 [])) as [[[action' carry_on] w']|e] eqn:Hrun;
    [|vm_compute in Hrun; discriminate Hrun].
  destruct (handle_methodcall_outcome (exe:=TestExecutor) seeded_action
              test_workflow_value (mkWorld 0 [])) as [_ Hout].
  destruct (Hout _ _ _ Hrun) as (contract & Hc & Hcalls & Hsame & Hc' & Hcases).
  exists action', carry_on, w', contract.
  split; [reflexivity|]. split; [exact Hc|]. split; [exact Hcalls|].
  split; [exact Hsame|]. split; [exact Hc'|exact Hcases].
Defined.


(** X6 on a proxy whose [set_proxy] failed on the pass before. *)
Lemma proxy_retry_only_sets_proxy_witness :
  ∃ action' carry_on w',
    handle_deploy_proxy (exe:=TestExecutor) failed_proxy_action test_workflow_value
      (mkWorld 0 []) = Ok ((action', carry_on), w')
    ∧ calls w' = [] ++
        [CallSetProxy test_workflow_value (Some deployed_proxy) (Some deployed_impl)]
    ∧ Action.contract action' = Some deployed_proxy.
Proof.
  do 3 eexists. split; [vm_compute; reflexivity|].
  eapply (proxy_retry_only_sets_proxy (exe:=TestExecutor) failed_proxy_action
            test_workflow_value (mkWorld 0 []));
    [reflexivity | vm_compute; reflexivity].
Defined.

(** X7 on the first pass of a resolved proxy. *)
Lemma handle_deploy_proxy_outcome_witness :
  ∃ action' carry_on w',
    handle_deploy_proxy (exe:=TestExecutor) resolved_proxy_action test_workflow_value
      (mkWorld 0 []) = Ok ((action', carry_on), w')
    ∧ same_inputs resolved_proxy_action action'
    ∧ (carry_on = true →
         (Action.action_state resolved_proxy_action ≠ Some FAILED_SET_PROXY
          ∧ Action.action_state action' = Some COMPLETED)
         ∨ (Action.action_state resolved_proxy_action = Some FAILED_SET_PROXY
            ∧ action' = resolved_proxy_action))
    ∧ (carry_on = false →
         Action.action_state action' = Some FAILED_COMPILE
         ∨ Action.action_state action' = Some FAILED_COMPLETE
         ∨ Action.action_state action' = Some FAILED_SET_PROXY)
    ∧ (Action.action_state resolved_proxy_action ≠ Some FAILED_SET_PROXY →
       ∃ action1 carry_on1 w1,
         handle_deploy_contract (exe:=TestExecutor) resolved_proxy_action
           test_workflow_value (mkWorld 0 []) = Ok ((action1, carry_on1), w1)
         ∧ (carry_on1 = false → action' = action1 ∧ carry_on = false ∧ w' = w1)
         ∧ (carry_on1 = true →
              Action.action_state action1 = Some COMPLETED
              ∧ Action.contract action' = Action.contract action1
              ∧ (carry_on = true → action' = action1)
              ∧ calls w' = calls w1 ++
                  [CallSetProxy test_workflow_value (Action.contract action1)
                     (Action.impl_contract resolved_proxy_action)])).
Proof.
  do 3 eexists. split; [vm_compute; reflexivity|].
  apply (handle_deploy_proxy_outcome (exe:=TestExecutor) resolved_proxy_action
           test_workflow_value (mkWorld 0 [])). reflexivity.
Defined.

(** ** Dictionaries *)

Lemma dict_get_set_eq {V : Type} k (v : V) d : dict_get k (dict_set k v d) = Some v.
Proof.
  induction d as [|[k' v'] d IH]; simpl.
  - by rewrite decide_True.
  - destruct (decide (k' = k)) as [->|Hne]; simpl.
    + by rewrite decide_True.
    + by rewrite decide_False.
Qed.

Lemma dict_get_set_ne {V : Type} k k' (v : V) d :
  k' ≠ k → dict_get k' (dict_set k v d) = dict_get k' d.
Proof.
  intros Hne. induction d as [|[k0 v0] d IH]; simpl.
  - by rewrite decide_False.
  - destruct (decide (k0 = k)) as [->|Hne0]; simpl.
    + by rewrite !decide_False.
    + destruct (decide (k0 = k')); [done | exact IH].
Qed.

(** ** The resolver, dependency kind by dependency kind *)

Section ResolverKinds.
Context {C : Type} {web3 : Web3 C} {E : Type}.

(** X8: resolving a [CONSTRUCTOR] dependency on an action that has an
    [args] mapping stores the parent's contract address under
    [target_arg] and leaves every other key of [args] as it was; besides
    [args], only [libraries] is assigned. *)
Theorem resolve_constructor_dependency (s : State E) a action args dep libs
    p prev prev_contract :
  Dependency.dependency_type dep = CONSTRUCTOR →
  heap s !! a = Some action →
  Action.args action = Some args →
  Workflow.completed (workflow s) !! Some (Dependency.parent dep) = Some p →
  heap s !! p = Some prev →
  Action.contract prev = Some prev_contract →
  ∃ args',
    resolve_dep a dep libs s =
      Ok (inr libs,
          set_heap (<[a := Action.set_libraries (Some libs)
                            (Action.set_args (Some args') action)]> (heap s)) s)
    ∧ dict_get (Dependency.target_arg dep) args'
        = Some (py_of_str (Contract.address prev_contract))
    ∧ (∀ k, k ≠ Dependency.target_arg dep → dict_get k args' = dict_get k args)
    ∧ (length args ≤ length args' ≤ S (length args))%nat.
Proof.
  intros Hty Ha Hargs Hp Hprev Hc.
  exists (dict_set (Dependency.target_arg dep)
            (py_of_str (Contract.address prev_contract)) args).
  split; [|split; [apply dict_get_set_eq | split; [intros k Hk; by apply dict_get_set_ne|]]].
  - unfold resolve_dep. rewrite Hty. mrun. rewrite Hp. mrun. rewrite Hc.
    erewrite bind_run; [| mrun; rewrite Hargs; repeat mrun; reflexivity].
    repeat mrun. unfold set_heap; simpl. by rewrite !insert_insert_eq.
  - generalize (Dependency.target_arg dep) (py_of_str (Contract.address prev_contract)).
    intros k v. clear Hargs. induction args as [|[k' v'] d IH]; simpl; [lia|].
    destruct (decide (k' = k)); simpl; lia.
Qed.

Lemma parent_address_same_parent (s : State E) d d' :
  Dependency.parent d = Dependency.parent d' → parent_address s d = parent_address s d'.
Proof. unfold parent_address. by intros ->. Qed.

Lemma parent_address_stable (s : State E) a action action' d :
  heap s !! a = Some action →
  Action.contract action' = Action.contract action →
  parent_address (set_heap (<[a := action']> (heap s)) s) d = parent_address s d.
Proof.
  intros Ha Hc. unfold parent_address; simpl.
  destruct (Workflow.completed (workflow s) !! Some (Dependency.parent d)) as [p|];
    [simpl|done].
  destruct (decide (p = a)) as [->|Hne].
  - rewrite lookup_insert_eq, Ha. simpl. by rewrite Hc.
  - by rewrite lookup_insert_ne.
Qed.

Lemma resolve_library_step (s : State E) a action d libs v :
  Dependency.dependency_type d = LIBRARY →
  heap s !! a = Some action →
  parent_address s d = Some v →
  resolve_dep a d libs s =
    Ok (inr (dict_set (Some (Dependency.parent d)) v libs),
        set_heap (<[a := Action.set_libraries
                          (Some (dict_set (Some (Dependency.parent d)) v libs))
                          action]> (heap s)) s).
Proof.
  intros Hty Ha Hv. unfold parent_address in Hv. unfold resolve_dep. rewrite Hty. mrun.
  destruct (Workflow.completed (workflow s) !! Some (Dependency.parent d)) as [p|];
    [simpl in Hv|done].
  destruct (heap s !! p) as [prev|] eqn:Hprev; [simpl in Hv|done]. mrun.
  destruct (Action.contract prev) as [c|]; [simpl in Hv|done].
  injection Hv as <-. by repeat mrun.
Qed.

Lemma dependencies_loop_cons a d rest libs :
  dependencies_loop (E:=E) a (d :: rest) libs =
    (resolve_dep a d libs ≫= λ r,
       match r with
       | inl msg => mret (false, Some msg)
       | inr libs0 => dependencies_loop a rest libs0
       end).
Proof. reflexivity. Qed.

Lemma library_loop (s : State E) a action d rest libs :
  heap s !! a = Some action →
  (∀ d', d' ∈ d :: rest →
         Dependency.dependency_type d' = LIBRARY ∧ is_Some (parent_address s d')) →
  ∃ libs',
    dependencies_loop a (d :: rest) libs s =
      Ok ((true, None),
          set_heap (<[a := Action.set_libraries (Some libs') action]> (heap s)) s)
    ∧ (∀ d', d' ∈ d :: rest →
             dict_get (Some (Dependency.parent d')) libs' = parent_address s d')
    ∧ (∀ k, (∀ d', d' ∈ d :: rest → k ≠ Some (Dependency.parent d')) →
            dict_get k libs' = dict_get k libs).
Proof.
  revert s action d libs. induction rest as [|d1 rest IH]; intros s action d libs Ha Hall.
  - destruct (Hall d (list_elem_of_here _ _)) as [Hty [v Hv]].
    exists (dict_set (Some (Dependency.parent d)) v libs). split; [|split].
    + simpl. by rewrite (bind_run _ _ _ _ _ (resolve_library_step _ _ _ _ _ _ Hty Ha Hv)).
    + intros d' ->%list_elem_of_singleton. by rewrite dict_get_set_eq.
    + intros k Hk. apply dict_get_set_ne. apply Hk, list_elem_of_here.
  - destruct (Hall d (list_elem_of_here _ _)) as [Hty [v Hv]].
    set (libs1 := dict_set (Some (Dependency.parent d)) v libs).
    set (action1 := Action.set_libraries (Some libs1) action).
    set (s1 := set_heap (<[a := action1]> (heap s)) s).
    assert (∀ d', parent_address s1 d' = parent_address s d') as Hstable.
    { intros d'. by apply (parent_address_stable s a action). }
    destruct (IH s1 action1 d1 libs1) as (libs' & Hrun & Hget & Hother).
    { simpl. apply lookup_insert_eq. }
    { intros d' Hd'. rewrite Hstable. apply Hall. by apply list_elem_of_further. }
    exists libs'. split; [|split].
    + rewrite dependencies_loop_cons.
      rewrite (bind_run _ _ _ _ _ (resolve_library_step _ _ _ _ _ _ Hty Ha Hv)).
      fold libs1 action1 s1. rewrite Hrun. unfold s1, set_heap; simpl.
      by rewrite insert_insert_eq.
    + intros d' [-> | Hd']%elem_of_cons.
      * destruct (decide (Dependency.parent d ∈ (Dependency.parent <$> d1 :: rest)))
          as [Hin | Hnotin].
        -- apply list_elem_of_fmap in Hin as (d' & Hpar & Hd').
           rewrite Hpar, (Hget d' Hd'), Hstable.
           by apply parent_address_same_parent.
        -- rewrite Hother.
           ++ unfold libs1. by rewrite dict_get_set_eq.
           ++ intros d' Hd' [= Heq]. apply Hnotin, list_elem_of_fmap. eauto.
      * rewrite (Hget d' Hd'). apply Hstable.
    + intros k Hk. rewrite Hother.
      * unfold libs1. apply dict_get_set_ne. apply Hk, list_elem_of_here.
      * intros d' Hd'. apply Hk. by apply list_elem_of_further.
Qed.

(** X9: when every dependency of an action is a [LIBRARY] dependency on a
    completed action with a contract, the resolver returns [(True, None)]
    and its one effect is to assign [libraries]: the new mapping holds,
    for each dependency, the address of the parent's contract under the
    parent's name, and has no other key.  What [libraries] held before is
    discarded. *)
Theorem resolve_library_dependencies (s : State E) a action deps :
  heap s !! a = Some action →
  Action.action_state action ≠ Some COMPLETED →
  Action.dependencies action = Some deps →
  deps ≠ [] →
  (∀ d, d ∈ deps →
        Dependency.dependency_type d = LIBRARY ∧ is_Some (parent_address s d)) →
  ∃ libs,
    dependencies a s =
      Ok ((true, None),
          set_heap (<[a := Action.set_libraries (Some libs) action]> (heap s)) s)
    ∧ (∀ d, d ∈ deps → dict_get (Some (Dependency.parent d)) libs = parent_address s d)
    ∧ (∀ k, is_Some (dict_get k libs) → ∃ d, d ∈ deps ∧ k = Some (Dependency.parent d)).
Proof.
  intros Ha Hst Hdeps Hne Hall. destruct deps as [|d rest]; [done|].
  destruct (library_loop s a action d rest [] Ha Hall) as (libs & Hrun & Hget & Hother).
  exists libs. split; [|split; [done|]].
  - unfold dependencies. mrun. rewrite bool_decide_eq_false_2 by congruence.
    by rewrite Hdeps.
  - intros k [v Hv].
    destruct (decide (k ∈ ((λ d', Some (Dependency.parent d')) <$> d :: rest)))
      as [Hin | Hnotin].
    + apply list_elem_of_fmap in Hin as (d' & -> & Hd'). eauto.
    + rewrite Hother in Hv; [done|].
      intros d' Hd' ->. apply Hnotin, list_elem_of_fmap. eauto.
Qed.

End ResolverKinds.

(** ** The driver, further *)

Section DriverMore.
Context {C : Type} {web3 : Web3 C} {E : Type} {exe : Executor E}.

Lemma resolve_contract_step (s : State E) a action dep libs p prev prev_contract :
  Dependency.dependency_type dep = CONTRACT →
  heap s !! a = Some action →
  Workflow.completed (workflow s) !! Some (Dependency.parent dep) = Some p →
  heap s !! p = Some prev →
  Action.contract prev = Some prev_contract →
  resolve_dep a dep libs s =
    Ok (inr libs,
        set_heap (<[a := Action.set_libraries (Some libs)
                          (Action.set_contract (Some prev_contract) action)]>
                    (heap s)) s).
Proof.
  intros Hty Ha Hp Hprev Hc. unfold resolve_dep. rewrite Hty.
  mrun. rewrite Hp. mrun. rewrite Hc.
  erewrite bind_run; [| repeat mrun; reflexivity].
  repeat mrun. unfold set_heap; simpl. by rewrite !insert_insert_eq.
Qed.

(** X10: a [METHOD_CALL] action whose one dependency is a [CONTRACT]
    dependency on a completed action adopts that action's contract, and
    the iteration of the driver on it, when it returns, has made exactly
    one Executor call: [submit_transaction] on the [api_name] of the
    parent's contract, with the action's [method_name] and [args].  The
    action's own [api_name] plays no part. *)
Theorem method_call_goes_to_the_parent_contract (s s' : State E) a action dep
    p prev prev_contract flow :
  heap s !! a = Some action →
  Action.action_type action = METHOD_CALL →
  Action.action_state action ≠ Some COMPLETED →
  Action.dependencies action = Some [dep] →
  Dependency.dependency_type dep = CONTRACT →
  Workflow.completed (workflow s) !! Some (Dependency.parent dep) = Some p →
  heap s !! p = Some prev →
  Action.contract prev = Some prev_contract →
  deploy_step a s = Ok (flow, s') →
  calls (world s') = calls (world s) ++
    [CallSubmitTransaction (Contract.api_name prev_contract)
       (Action.method_name action) (Action.args action)]
  ∧ (Action.contract <$> heap s' !! a) = Some (Some prev_contract)
  ∧ (flow = Promoted ∧ (Action.action_state <$> heap s' !! a) = Some (Some COMPLETED)
     ∨ flow = Break
       ∧ (Action.action_state <$> heap s' !! a) = Some (Some FAILED_METHOD_CALL)).
Proof.
  intros Ha Hty Hst Hdeps Hdty Hp Hprev Hc H.
  assert (dependencies a s =
    Ok ((true, None),
        set_heap (<[a := Action.set_libraries (Some [])
                          (Action.set_contract (Some prev_contract) action)]>
                    (heap s)) s)) as Hres.
  { unfold dependencies. mrun. rewrite bool_decide_eq_false_2 by congruence.
    rewrite Hdeps. simpl.
    by rewrite (bind_run _ _ _ _ _
                  (resolve_contract_step _ _ _ _ _ _ _ _ Hdty Ha Hp Hprev Hc)). }
  unfold deploy_step in H. rewrite (bind_run _ _ _ _ _ Hres) in H.
  cbv beta iota in H. change (truthy_str None) with false in H. cbv iota in H.
  revert H. mrun. change (negb true) with false. cbv iota.
  intros H. apply bind_Ok in H as (c & s2 & Hdisp & Hk).
  revert Hdisp. unfold dispatch. mrun.
  change (Action.action_type _) with (Action.action_type action). rewrite Hty.
  unfold run_handler. repeat mrun.
  intros H. apply bind_Ok in H as ([action' carry_on] & s3 & Hz & H).
  unfold zoom in Hz.
  match type of Hz with
  | match ?h with _ => _ end = _ => destruct h as [[r w']|] eqn:Hh; [|done]
  end.
  inversion Hz; subst. clear Hz.
  apply (handle_methodcall_states _ _ _ prev_contract) in Hh as (Hcalls & Hcontract & Hout);
    [|done].
  simpl in Hcalls.
  revert H. repeat mrun. intros Heq. cbv [mret M_mret] in Heq. injection Heq as <- <-.
  destruct Hout as [(-> & Hs') | (-> & Hs')]; simpl in Hk.
  - apply bind_Ok in Hk as ([] & s4 & Hprom & Hk).
    cbv [mret M_mret] in Hk. injection Hk as <- <-.
    revert Hprom. unfold promote. mrun. intros Heq. cbv [modify] in Heq.
    injection Heq as <-. simpl.
    rewrite lookup_insert_eq. simpl. split; [done|]. split; [by rewrite Hcontract|].
    left. by rewrite Hs'.
  - inversion Hk; subst. simpl.
    rewrite lookup_insert_eq. simpl. split; [done|]. split; [by rewrite Hcontract|].
    right. by rewrite Hs'.
Qed.

(** *** What a pass keeps *)

#[global] Instance plan_fields_preorder : PreOrder plan_fields.
Proof.
  split.
  - intros x. by repeat split.
  - intros x y z (?&?&?&?) (?&?&?&?). repeat split; congruence.
Qed.

#[global] Instance resolver_keeps_preorder : PreOrder resolver_keeps.
Proof.
  split.
  - intros x. by repeat split.
  - intros x y z (Hp1&?&?) (Hp2&?&?). split; [by etrans|]. split; congruence.
Qed.

#[global] Instance heap_rel_preorder (Q : Action.t → Action.t → Prop) `{!PreOrder Q} :
  PreOrder (heap_rel (E:=E) Q).
Proof.
  split.
  - intros s l action Hl. by exists action.
  - intros s1 s2 s3 H12 H23 l action Hl.
    destruct (H12 l action Hl) as (action2 & Hl2 & HQ2).
    destruct (H23 l action2 Hl2) as (action3 & Hl3 & HQ3).
    exists action3. split; [done | by etrans].
Qed.

Lemma update_heap_rel (Q : Action.t → Action.t → Prop) `{!PreOrder Q} a f :
  (∀ x, Q x (f x)) → preserves (heap_rel (E:=E) Q) (update a f).
Proof.
  intros Hf s y s' H. unfold update in H.
  apply bind_Ok in H as (action & s1 & H1 & H2).
  unfold read in H1. destruct (heap s !! a) eqn:Ha; inversion H1; subst.
  inversion H2; subst. intros l x Hl. simpl.
  destruct (decide (l = a)) as [->|Hne].
  - rewrite lookup_insert_eq. assert (x = action) as -> by congruence. eauto.
  - rewrite lookup_insert_ne by done. by exists x.
Qed.

Ltac keeps_fields :=
  intros ?; repeat split.

Lemma resolve_dep_heap_rel a dep libs :
  preserves (heap_rel (E:=E) resolver_keeps) (resolve_dep a dep libs).
Proof.
  unfold resolve_dep.
  repeat first [apply update_heap_rel; [apply _ | keeps_fields] | preserves_step].
Qed.

Lemma dependencies_heap_rel a :
  preserves (heap_rel (E:=E) resolver_keeps) (dependencies a).
Proof.
  unfold dependencies. apply preserves_bind; [apply _|apply preserves_read, _|].
  intros action. destruct (bool_decide _); [apply preserves_mret, _|].
  generalize (default [] (Action.dependencies action)) (@nil (option string * PyVal)).
  intros deps. induction deps as [|dep rest IH]; intros libs; simpl.
  - apply preserves_mret, _.
  - apply preserves_bind; [apply _|apply resolve_dep_heap_rel|].
    intros [msg|libs']; [apply preserves_mret, _ | apply IH].
Qed.

(** X11: the resolver touches only the action it is given, and of that
    action never the fields [action_type], [dependencies], [api_name],
    [method_name], [action_state] and [error_message]; this holds whether
    it succeeds, reports an unresolved dependency or skips a [COMPLETED]
    action.  The workflow, its [completed] table, the Executor and every
    other action are as before: the resolver makes no Executor call. *)
Theorem resolver_touches_only_its_action (s s1 : State E) a r :
  dependencies a s = Ok (r, s1) →
  workflow s1 = workflow s
  ∧ world s1 = world s
  ∧ (∀ l, l ≠ a → heap s1 !! l = heap s !! l)
  ∧ (∀ action, heap s !! a = Some action →
       ∃ action1, heap s1 !! a = Some action1
                  ∧ Action.action_type action1 = Action.action_type action
                  ∧ Action.dependencies action1 = Action.dependencies action
                  ∧ Action.api_name action1 = Action.api_name action
                  ∧ Action.method_name action1 = Action.method_name action
                  ∧ Action.action_state action1 = Action.action_state action
                  ∧ Action.error_message action1 = Action.error_message action).
Proof.
  intros H.
  destruct (dependencies_only_changes _ _ _ _ H) as (Hw & Hx & Hh & _).
  split; [done|]. split; [done|]. split; [done|].
  intros action Ha.
  destruct (dependencies_heap_rel _ _ _ _ H a action Ha)
    as (action1 & Ha1 & (Ht & Hd & Hapi & Hm) & Hst & Herr).
  exists action1. by repeat split.
Qed.

#[global] Instance deploy_invariant_preorder pending :
  PreOrder (deploy_invariant (E:=E) pending).
Proof.
  split.
  - intros s. split; [reflexivity|]. repeat split; try done.
    + intros k l Hk. by left.
    + exists []. by rewrite app_nil_r.
  - intros s1 s2 s3 (Hh1 & ? & ? & ? & ? & Hk1 & Hn1 & new1 & Hc1)
                     (Hh2 & ? & ? & ? & ? & Hk2 & Hn2 & new2 & Hc2).
    split; [by etrans|]. repeat split; try congruence.
    + intros k Hk. by apply Hk2, Hk1.
    + intros k l Hk. destruct (Hn2 k l Hk) as [Hk'|]; [by apply Hn1 | by right].
    + exists (new1 ++ new2). by rewrite Hc2, Hc1, app_assoc.
Qed.

Lemma heap_change_deploy_invariant pending (s s' : State E) :
  heap_rel plan_fields s s' → workflow s' = workflow s → world s' = world s →
  deploy_invariant pending s s'.
Proof.
  intros Hh Hw Hx. split; [done|]. rewrite Hw, Hx. repeat split; try done.
  - intros k l Hk. by left.
  - exists []. by rewrite app_nil_r.
Qed.

Lemma update_deploy_invariant pending a f :
  (∀ x, plan_fields x (f x)) →
  preserves (deploy_invariant (E:=E) pending) (update a f).
Proof.
  intros Hf s y s' H.
  pose proof (update_heap_rel plan_fields a f Hf _ _ _ H) as Hh.
  destruct (preserves_update a f _ _ _ H) as (Hw & Hx & _).
  by apply heap_change_deploy_invariant.
Qed.

Lemma dependencies_deploy_invariant pending a :
  preserves (deploy_invariant (E:=E) pending) (dependencies a).
Proof.
  intros s r s1 H.
  destruct (dependencies_only_changes _ _ _ _ H) as (Hw & Hx & _).
  apply heap_change_deploy_invariant; [|done|done].
  intros l action Hl.
  destruct (dependencies_heap_rel _ _ _ _ H l action Hl) as (action1 & Hl1 & Hp & _).
  eauto.
Qed.

(** Every handler keeps the plan fields of the action and only adds to
    the log of calls. *)
Lemma handlers_keep_plan (a : loc) (s : State E) action wf w action' carry_on w' :
  (handle_deploy_library action wf w = Ok ((action', carry_on), w')
   ∨ handle_methodcall action wf w = Ok ((action', carry_on), w')
   ∨ handle_deploy_contract action wf w = Ok ((action', carry_on), w')
   ∨ handle_deploy_proxy action wf w = Ok ((action', carry_on), w')) →
  same_inputs action action' ∧ ∃ new, calls w' = calls w ++ new.
Proof.
  assert (∀ action action' (w w' : World E) carry_on,
            handle_deploy_contract action wf w = Ok ((action', carry_on), w') →
            same_inputs action action' ∧ ∃ new, calls w' = calls w ++ new) as Hdc.
  { clear. intros action action' w w' carry_on H.
    split; [by apply handle_deploy_contract_states in H as [? _]|].
    unfold handle_deploy_contract in H. destruct (needs_compile action).
    - apply bind_Ok in H as ([c err] & w1 & Hinv & H).
      apply invoke_Ok in Hinv as (e' & _ & ->).
      destruct (truthy_str err).
      + inversion H; subst. simpl. eauto.
      + apply deploy_phase_calls in H. simpl in H. rewrite <- app_assoc in H. eauto.
    - apply deploy_phase_calls in H. eauto. }
  intros [H | [H | [H | H]]].
  - unfold handle_deploy_library in H.
    apply bind_Ok in H as ([contract err] & w1 & Hinv & H).
    apply invoke_Ok in Hinv as (e' & _ & ->).
    destruct (Action.contract action), (truthy_str err); inversion H; subst; simpl;
      (split; [by repeat split | eauto]).
  - unfold handle_methodcall in H.
    destruct (Action.contract action) as [contract|]; [|done].
    apply bind_Ok in H as (c & w0 & [= <- <-] & H).
    apply bind_Ok in H as ([txn err] & w1 & Hinv & H).
    apply invoke_Ok in Hinv as (e' & _ & ->).
    destruct (truthy_str err); inversion H; subst; simpl;
      (split; [by repeat split | eauto]).
  - by apply (Hdc _ _ _ _ carry_on).
  - unfold handle_deploy_proxy in H.
    destruct (negb (bool_decide (Action.action_state action = Some FAILED_SET_PROXY))).
    + apply bind_Ok in H as ([action1 c1] & w1 & H1 & H).
      apply Hdc in H1 as (Hsame1 & new1 & Hc1).
      destruct c1; simpl in H.
      * apply set_proxy_phase_outcome in H as (Hc2 & Hsame2 & _).
        split.
        -- destruct Hsame1 as (?&?&?&?&?&?&?&?&?&?), Hsame2 as (?&?&?&?&?&?&?&?&?&?).
           repeat split; congruence.
        -- rewrite Hc2, Hc1, <- app_assoc. eauto.
      * inversion H; subst. eauto.
    + apply set_proxy_phase_outcome in H as (Hc2 & Hsame2 & _). eauto.
Qed.

Lemma same_inputs_plan_fields action action' :
  same_inputs action action' → plan_fields action action'.
Proof. intros (?&?&?&?&?&?&?&?&?&?). by repeat split. Qed.

Lemma dispatch_deploy_invariant pending a :
  preserves (deploy_invariant (E:=E) pending) (dispatch a).
Proof.
  intros s c s' H. unfold dispatch in H.
  apply bind_Ok in H as (action0 & s0 & Hread & H).
  unfold read in Hread. destruct (heap s !! a) as [action|] eqn:Ha; [|done].
  injection Hread as <- <-.
  assert (∃ handle,
            run_handler handle a s = Ok (c, s')
            ∧ ∀ action' carry_on w',
                handle action (workflow s) (world s) = Ok ((action', carry_on), w') →
                same_inputs action action'
                ∧ ∃ new, calls w' = calls (world s) ++ new) as (handle & Hrun & Hkeep).
  { destruct (Action.action_type action); eexists; (split; [exact H|]);
      intros action' carry_on w' Hh;
      eapply (handlers_keep_plan a s _ (workflow s) _ _ carry_on); eauto. }
  clear H. unfold run_handler in Hrun. revert Hrun. repeat mrun. intros H.
  apply bind_Ok in H as ([action' carry_on] & s1 & Hz & H).
  unfold zoom in Hz.
  destruct (handle action (workflow s) (world s)) as [[r w']|] eqn:Hh; [|done].
  injection Hz as -> <-.
  destruct (Hkeep _ _ _ eq_refl) as (Hsame & new & Hcalls).
  revert H. repeat mrun. intros Heq. cbv [mret M_mret] in Heq. injection Heq as <- <-.
  split; [|simpl; repeat split; try done].
  - intros l x Hl. simpl. destruct (decide (l = a)) as [->|Hne].
    + rewrite lookup_insert_eq. assert (x = action) as -> by congruence.
      eexists. split; [done|]. by apply same_inputs_plan_fields.
    + rewrite lookup_insert_ne by done. by exists x.
  - intros k l Hk. by left.
  - by exists new.
Qed.

Lemma promote_deploy_invariant pending a :
  a ∈ pending → preserves (deploy_invariant (E:=E) pending) (promote a).
Proof.
  intros Hin s [] s' H. unfold promote in H.
  apply bind_Ok in H as (action & s0 & Hread & H).
  unfold read in Hread. destruct (heap s !! a) as [action0|] eqn:Ha; [|done].
  injection Hread as <- <-. cbv [modify] in H. injection H as <-.
  split; [intros l x Hl; by exists x|]. simpl.
  do 4 (split; [done|]). split; [|split].
  - intros k Hk. destruct (decide (Action.contract_name action0 = k)) as [Heq|Hne].
    + subst k. rewrite lookup_insert_eq. eauto.
    + by rewrite lookup_insert_ne.
  - intros k l Hk. destruct (decide (Action.contract_name action0 = k)) as [Heq|Hne].
    + subst k. rewrite lookup_insert_eq in Hk. injection Hk as <-. by right.
    + rewrite lookup_insert_ne in Hk by done. by left.
  - exists []. by rewrite app_nil_r.
Qed.

Lemma deploy_step_deploy_invariant pending a :
  a ∈ pending → preserves (deploy_invariant (E:=E) pending) (deploy_step a).
Proof.
  intros Hin. unfold deploy_step.
  apply preserves_bind; [apply _ | apply dependencies_deploy_invariant |].
  intros [carry_on err]. destruct (truthy_str err).
  - repeat first [apply update_deploy_invariant; [keeps_fields] | preserves_step].
  - apply preserves_bind;
      [apply _ | apply update_deploy_invariant; keeps_fields | intros _].
    destruct (negb carry_on); [apply preserves_mret, _|].
    apply preserves_bind; [apply _ | apply dispatch_deploy_invariant | intros c].
    destruct (negb c); [apply preserves_mret, _|].
    apply preserves_bind; [apply _ | by apply promote_deploy_invariant | intros _].
    apply preserves_mret, _.
Qed.

Lemma deploy_loop_deploy_invariant pending actions count :
  actions ⊆ pending →
  preserves (deploy_invariant (E:=E) pending) (deploy_loop actions count).
Proof.
  revert count. induction actions as [|a rest IH]; intros count Hsub.
  - apply preserves_mret, _.
  - rewrite deploy_loop_cons.
    apply preserves_bind; [apply _ | apply deploy_step_deploy_invariant | intros flow].
    + apply Hsub, list_elem_of_here.
    + assert (rest ⊆ pending) by (intros x Hx; apply Hsub; by apply list_elem_of_further).
      destruct flow; [apply preserves_mret, _ | by apply IH | by apply IH].
Qed.

(** X12: what [deploy] keeps, whenever it returns.  Every action object
    is still there with its [action_type], [dependencies], [api_name] and
    [method_name]; the workflow keeps [app_name], [org], [blockchain] and
    [storage]; no key of [completed] is lost, and an entry that is new or
    changed refers to an action that was pending; [actions] afterwards is
    a suffix of [actions] before; the calls made on the Executor before
    are a prefix of the calls made after. *)
Theorem deploy_keeps_the_plan (s s' : State E) :
  deploy s = Ok (tt, s') →
  (∀ l action, heap s !! l = Some action →
     ∃ action', heap s' !! l = Some action'
                ∧ Action.action_type action' = Action.action_type action
                ∧ Action.dependencies action' = Action.dependencies action
                ∧ Action.api_name action' = Action.api_name action
                ∧ Action.method_name action' = Action.method_name action)
  ∧ Workflow.app_name (workflow s') = Workflow.app_name (workflow s)
  ∧ Workflow.org (workflow s') = Workflow.org (workflow s)
  ∧ Workflow.blockchain (workflow s') = Workflow.blockchain (workflow s)
  ∧ Workflow.storage (workflow s') = Workflow.storage (workflow s)
  ∧ (∀ k, is_Some (Workflow.completed (workflow s) !! k) →
          is_Some (Workflow.completed (workflow s') !! k))
  ∧ (∀ k l, Workflow.completed (workflow s') !! k = Some l →
            Workflow.completed (workflow s) !! k = Some l
            ∨ l ∈ Workflow.actions (workflow s))
  ∧ (∃ n, Workflow.actions (workflow s') = drop n (Workflow.actions (workflow s)))
  ∧ ∃ new, calls (world s') = calls (world s) ++ new.
Proof.
  intros H. unfold deploy in H.
  apply bind_Ok in H as (s0 & s0' & [= <- <-] & H).
  apply bind_Ok in H as (n & s_end & Hloop & H).
  pose proof (deploy_loop_keeps_actions _ _ _ _ _ Hloop) as Hact.
  apply (deploy_loop_deploy_invariant (Workflow.actions (workflow s))) in Hloop;
    [|done].
  destruct Hloop as (Hh & ? & ? & ? & ? & Hk & Hn & Hc).
  cbv [modify] in H. injection H as <-. simpl.
  split; [|repeat split; try done].
  - intros l action Hl. destruct (Hh l action Hl) as (action' & Hl' & ? & ? & ? & ?).
    eauto 10.
  - exists n. by rewrite Hact.
Qed.

(** *** Pending actions that are already completed *)

Lemma deploy_step_completed (s : State E) a action :
  heap s !! a = Some action →
  Action.action_state action = Some COMPLETED →
  deploy_step a s =
    Ok (Continue, set_heap (<[a := Action.set_error_message None action]> (heap s)) s).
Proof.
  intros Ha Hst. unfold deploy_step.
  erewrite bind_run.
  2:{ unfold dependencies. mrun. rewrite bool_decide_eq_true_2 by done. reflexivity. }
  cbv beta iota. change (truthy_str None) with false. cbv iota. by mrun.
Qed.

Lemma deploy_loop_completed actions count (s : State E) :
  (∀ a, a ∈ actions →
        ∃ action, heap s !! a = Some action
                  ∧ Action.action_state action = Some COMPLETED) →
  ∃ s',
    deploy_loop actions count s = Ok (count, s')
    ∧ workflow s' = workflow s
    ∧ world s' = world s
    ∧ ∀ l, heap s' !! l =
             (λ action, if bool_decide (l ∈ actions)
                        then Action.set_error_message None action else action)
               <$> heap s !! l.
Proof.
  revert s. induction actions as [|a rest IH]; intros s Hall.
  - exists s. split; [done|]. split; [done|]. split; [done|].
    intros l. rewrite bool_decide_eq_false_2 by apply not_elem_of_nil.
    by destruct (heap s !! l).
  - destruct (Hall a (list_elem_of_here _ _)) as (action & Ha & Hst).
    set (s1 := set_heap (<[a := Action.set_error_message None action]> (heap s)) s).
    destruct (IH s1) as (s' & Hloop & Hw & Hx & Hheap).
    { intros b Hb. destruct (Hall b (list_elem_of_further _ _ _ Hb)) as (ab & Hb' & Hstb).
      simpl. destruct (decide (b = a)) as [->|Hne].
      - rewrite lookup_insert_eq. eexists. split; [done|]. done.
      - rewrite lookup_insert_ne by done. eauto. }
    exists s'. split; [|split; [done|split; [done|]]].
    + rewrite deploy_loop_cons.
      by rewrite (bind_run _ _ _ _ _ (deploy_step_completed _ _ _ Ha Hst)).
    + intros l. rewrite Hheap. simpl. destruct (decide (l = a)) as [->|Hne].
      * rewrite lookup_insert_eq, Ha. simpl.
        rewrite (bool_decide_eq_true_2 (a ∈ a :: rest)) by apply list_elem_of_here.
        by destruct (bool_decide (a ∈ rest)).
      * rewrite lookup_insert_ne by done.
        destruct (heap s !! l) as [x|]; [simpl|done].
        destruct (bool_decide (l ∈ rest)) eqn:Hin.
        -- apply bool_decide_eq_true in Hin.
           by rewrite bool_decide_eq_true_2 by (by apply list_elem_of_further).
        -- apply bool_decide_eq_false in Hin.
           rewrite bool_decide_eq_false_2; [done|].
           by intros [?|?]%elem_of_cons.
Qed.

(** X13: on a workflow whose pending actions are all [COMPLETED] (in
    particular one with no pending action) [deploy] returns, makes no
    Executor call, promotes nothing and removes nothing: the workflow,
    [actions] included, is unchanged, and the one effect is that the
    [error_message] of each pending action is cleared. *)
Theorem deploy_skips_completed_actions (s : State E) :
  (∀ a, a ∈ Workflow.actions (workflow s) →
        ∃ action, heap s !! a = Some action
                  ∧ Action.action_state action = Some COMPLETED) →
  ∃ s',
    deploy s = Ok (tt, s')
    ∧ workflow s' = workflow s
    ∧ world s' = world s
    ∧ ∀ l, heap s' !! l =
             (λ action, if bool_decide (l ∈ Workflow.actions (workflow s))
                        then Action.set_error_message None action else action)
               <$> heap s !! l.
Proof.
  intros Hall.
  destruct (deploy_loop_completed _ 0 s Hall) as (s' & Hloop & Hw & Hx & Hheap).
  exists s'. split; [|done].
  unfold deploy. mrun. rewrite (bind_run _ _ _ _ _ Hloop).
  cbv [modify]. cbn [drop]. f_equal. f_equal. apply (set_actions_same s').
Qed.

End DriverMore.

(** ** Call-data encoding *)

Section Encoding.
Context {C : Type} {web3 : Web3 C}.

(** X14: [encode_calldata] falls back on an empty parameter list when the
    metadata has no [contract] entry, no [methods] entry under it, no
    entry for the method, or no [params] under the method: the encoder is
    then called with no arguments, whatever [args] is, [None] included. *)
Theorem encode_calldata_without_params deployed_contract method_name args metadata c :
  eth_contract (Contract.abi deployed_contract) = Ok c →
  Contract.metadata deployed_contract = Some metadata →
  (dict_get (Some "contract") metadata = None
   ∨ ∃ contract,
       dict_get (Some "contract") metadata = Some (VDict contract)
       ∧ (dict_get (Some "methods") contract = None
          ∨ ∃ methods,
              dict_get (Some "methods") contract = Some (VDict methods)
              ∧ (dict_get method_name methods = None
                 ∨ ∃ method,
                     dict_get method_name methods = Some (VDict method)
                     ∧ dict_get (Some "params") method = None))) →
  encode_calldata deployed_contract method_name args =
    result_bind (encodeABI c method_name []) (λ encoded,
      Ok [(Some "_logic", py_of_str (Contract.address deployed_contract));
          (Some "_data", VStr encoded)]).
Proof.
  intros Hc Hmd Hmissing. unfold encode_calldata. rewrite Hc, Hmd.
  unfold result_bind at 1. unfold py_get at 1.
  destruct Hmissing as [H1 | (contract & H1 & Hmissing)]; rewrite H1; [done|].
  simpl default. unfold result_bind at 1. unfold py_get at 1.
  destruct Hmissing as [H2 | (methods & H2 & Hmissing)]; rewrite H2; [done|].
  simpl default. unfold result_bind at 1. unfold py_get at 1.
  destruct Hmissing as [H3 | (method & H3 & H4)]; rewrite H3; [done|].
  simpl default. unfold result_bind at 1. unfold py_get at 1.
  by rewrite H4.
Qed.

Lemma py_eq_name_true v n : py_eq_name v (Some n) = true ↔ v = VStr n.
Proof.
  destruct v; simpl; try (split; [done | by intros [=]]).
  rewrite String.eqb_eq. split; [by intros -> | by intros [= ->]].
Qed.

(** X15: when every parameter descriptor is a dictionary whose [name] is
    a string and [args] is a mapping, the projection returns one value per
    parameter, in the order of the parameters: the value of [args] under
    the parameter's name, or [None] when [args] has no such key.  Keys of
    [args] that name no parameter are ignored. *)
Theorem project_args_in_parameter_order (args : PyDict) (params : list PyVal) :
  Forall (λ param, ∃ descriptor name,
            param = VDict descriptor
            ∧ dict_get (Some "name") descriptor = Some (VStr name)) params →
  ∃ values,
    project_args (Some args) params = Ok values
    ∧ length values = length params
    ∧ ∀ i descriptor name,
        params !! i = Some (VDict descriptor) →
        dict_get (Some "name") descriptor = Some (VStr name) →
        values !! i = Some (default VNone (dict_get (Some name) args)).
Proof.
  induction params as [|param rest IH]; intros Hall.
  - exists []. split; [done|]. split; [done|]. intros i ?? Hi. done.
  - apply Forall_cons in Hall as [(descriptor & name & -> & Hname) Hrest].
    destruct (IH Hrest) as (values & Hproj & Hlen & Hnth).
    exists (default VNone (dict_get (Some name) args) :: values).
    split; [|split].
    + simpl. rewrite Hname. simpl. by rewrite Hproj.
    + simpl. by rewrite Hlen.
    + intros [|i] descriptor' name' Hi Hname'; simpl in *.
      * injection Hi as <-. rewrite Hname in Hname'. by injection Hname' as <-.
      * by eapply Hnth.
Qed.

End Encoding.

(** ** The SIMBA executor *)

(** X16: [get_address] answers from [primary] when that is a dictionary
    whose [name] is the name asked for: the result is its [address], or
    [None] when it has none, and the entries under [deployment] are not
    looked at, whatever they are. *)
Theorem get_address_prefers_primary (deployment primary : PyDict) (name : string) :
  dict_get (Some "primary") deployment = Some (VDict primary) →
  dict_get (Some "name") primary = Some (VStr name) →
  get_address (VDict deployment) (Some name)
    = Ok (default VNone (dict_get (Some "address") primary)).
Proof.
  intros Hprimary Hname. unfold get_address. simpl. rewrite Hprimary. simpl.
  destruct primary as [|entry primary']; [done|]. simpl py_truthy. cbv iota.
  rewrite Hname. simpl. by rewrite String.eqb_refl.
Qed.

Lemma get_address_loop_first_match pre entry post (name : string) :
  Forall (λ x, ∃ d, x = VDict d ∧ dict_get (Some "name") d ≠ Some (VStr name)) pre →
  dict_get (Some "name") entry = Some (VStr name) →
  get_address_loop (pre ++ VDict entry :: post) (Some name)
    = Ok (default VNone (dict_get (Some "address") entry)).
Proof.
  intros Hpre Hname. induction Hpre as [|x pre (d & -> & Hd) Hpre IH]; simpl.
  - rewrite Hname. simpl. by rewrite String.eqb_refl.
  - destruct (py_eq_name (default VNone (dict_get (Some "name") d)) (Some name)) eqn:Heq;
      [|exact IH].
    apply py_eq_name_true in Heq. destruct (dict_get (Some "name") d); [|done].
    simpl in Heq. by subst.
Qed.

Lemma get_address_loop_no_match entries (name : string) :
  Forall (λ x, ∃ d, x = VDict d ∧ dict_get (Some "name") d ≠ Some (VStr name)) entries →
  get_address_loop entries (Some name) = Ok VNone.
Proof.
  intros Hall. induction Hall as [|x rest (d & -> & Hd) Hall IH]; simpl; [done|].
  destruct (py_eq_name (default VNone (dict_get (Some "name") d)) (Some name)) eqn:Heq;
    [|exact IH].
  apply py_eq_name_true in Heq. destruct (dict_get (Some "name") d); [|done].
  simpl in Heq. by subst.
Qed.

(** X17: when [primary] is absent, [None], or a dictionary with another
    name, [get_address] answers from the list under [deployment]: the
    [address] of the first entry whose [name] is the name asked for
    ([None] when that entry has no address), and [None] when no entry has
    that name or the list is absent. *)
Theorem get_address_first_match_in_deployment (deployment : PyDict) (name : string) :
  (dict_get (Some "primary") deployment = None
   ∨ dict_get (Some "primary") deployment = Some VNone
   ∨ ∃ primary,
       dict_get (Some "primary") deployment = Some (VDict primary)
       ∧ dict_get (Some "name") primary ≠ Some (VStr name)) →
  (∀ pre entry post,
     dict_get (Some "deployment") deployment
       = Some (VList (pre ++ VDict entry :: post)) →
     Forall (λ x, ∃ d, x = VDict d ∧ dict_get (Some "name") d ≠ Some (VStr name)) pre →
     dict_get (Some "name") entry = Some (VStr name) →
     get_address (VDict deployment) (Some name)
       = Ok (default VNone (dict_get (Some "address") entry)))
  ∧ (∀ entries,
       dict_get (Some "deployment") deployment = None ∧ entries = []
       ∨ dict_get (Some "deployment") deployment = Some (VList entries) →
       Forall (λ x, ∃ d, x = VDict d ∧ dict_get (Some "name") d ≠ Some (VStr name))
         entries →
       get_address (VDict deployment) (Some name) = Ok VNone).
Proof.
  intros Hprimary.
  assert (∀ deps,
            default (VList []) (dict_get (Some "deployment") deployment) = VList deps →
            get_address (VDict deployment) (Some name)
              = get_address_loop deps (Some name)) as Hskip.
  { intros deps Hdeps. unfold get_address. simpl. rewrite Hdeps.
    destruct Hprimary as [-> | [-> | (primary & -> & Hname)]]; simpl; [done|done|].
    destruct primary as [|entry primary']; [done|].
    destruct (py_eq_name
                (default VNone (dict_get (Some "name") (entry :: primary')))
                (Some name)) eqn:Heq; [|done].
    apply py_eq_name_true in Heq.
    destruct (dict_get (Some "name") (entry :: primary')); [|done].
    simpl in Heq. by subst. }
  split.
  - intros pre entry post Hdeps Hpre Hname.
    rewrite (Hskip (pre ++ VDict entry :: post)) by (by rewrite Hdeps).
    by apply get_address_loop_first_match.
  - intros entries Hdeps Hall.
    rewrite (Hskip entries).
    + by apply get_address_loop_no_match.
    + by destruct Hdeps as [[-> ->] | ->].
Qed.

Section SimbaFacts.
Context {platform : Platform} {E : Type}.
Context (simba_deploy_library :
           string → option string → option string → string → string → option bool →
           M E (option Contract.t * option string)).

(** X18: with [SimbaExecutor], whose [compile_contract],
    [deploy_contract] and [submit_transaction] are not implemented, the
    engine cannot get past a contract, a fresh proxy or a method call:
    [handle_deploy_contract] raises [TypeError] on every action,
    [handle_deploy_proxy] on every action that is not in
    [FAILED_SET_PROXY], and [handle_methodcall] on every action that has
    a contract. *)
Theorem simba_executor_raises_type_error action wf (w : World E) :
  handle_deploy_contract (exe:=SimbaExecutor simba_deploy_library) action wf w
    = Raise TypeError
  ∧ (Action.action_state action ≠ Some FAILED_SET_PROXY →
     handle_deploy_proxy (exe:=SimbaExecutor simba_deploy_library) action wf w
       = Raise TypeError)
  ∧ (is_Some (Action.contract action) →
     handle_methodcall (exe:=SimbaExecutor simba_deploy_library) action wf w
       = Raise TypeError).
Proof.
  assert (handle_deploy_contract (exe:=SimbaExecutor simba_deploy_library) action wf w
          = Raise TypeError) as Hdc.
  { unfold handle_deploy_contract. by destruct (needs_compile action). }
  split; [done|]. split.
  - intros Hst. unfold handle_deploy_proxy.
    rewrite bool_decide_eq_false_2 by done. simpl. by apply bind_raise.
  - intros [contract Hc]. unfold handle_methodcall. by rewrite Hc.
Qed.

(** X19: a retry of [set_proxy] through [SimbaExecutor] whose PUT request
    raises.  The exception is caught and its text is the error: when the
    text is not empty the action stays in [FAILED_SET_PROXY] with that
    text; when the text is empty the error is falsy, the handler returns
    [carry_on=True] and the action comes back unchanged, as after a
    successful request. *)
Theorem simba_set_proxy_failure action wf (w : World E) proxy impl ex :
  Action.action_state action = Some FAILED_SET_PROXY →
  Action.contract action = Some proxy →
  Action.impl_contract action = Some impl →
  put_request
    ("/v2/organisations/" +:+ Workflow.org wf +:+ "/deployed_contracts/"
       +:+ fstr (Contract.id proxy) +:+ "/proxy/")
    [(Some "implementation", py_of_str (Contract.id impl))] = Raise ex →
  ∃ w',
    calls w' = calls w ++ [CallSetProxy wf (Some proxy) (Some impl)]
    ∧ executor w' = executor w
    ∧ handle_deploy_proxy (exe:=SimbaExecutor simba_deploy_library) action wf w =
        Ok (if String.eqb (exception_str ex) "" then (action, true)
            else (Action.set_error_message (Some (exception_str ex)) action, false),
            w').
Proof.
  intros Hst Hc Himpl Hput.
  exists (mkWorld (executor w) (calls w ++ [CallSetProxy wf (Some proxy) (Some impl)])).
  split; [done|]. split; [done|].
  unfold handle_deploy_proxy. rewrite Hst. simpl. unfold set_proxy_phase.
  rewrite Hc, Himpl.
  erewrite bind_run.
  2:{ apply invoke_run. simpl. unfold simba_set_proxy. simpl.
      erewrite bind_run by reflexivity. rewrite Hput. reflexivity. }
  cbv beta iota. unfold truthy_str.
  destruct (String.eqb (exception_str ex) ""); simpl; [done|].
  cbv [mret M_mret]. do 3 f_equal. destruct action; simpl in *. by subst.
Qed.

End SimbaFacts.

(** ** Instances *)

(** X8 on the contract of [constructor_plan] with an [args] mapping: the
    library's address is stored under [lib], [owner] keeps its value. *)
Lemma resolve_constructor_dependency_witness :
  ∃ args',
    resolve_dep (web3:=EchoWeb3) 1 (Dependency.mk CONSTRUCTOR "L" (Some "lib") None None)
      [] constructor_args_state =
      Ok (inr [],
          set_heap
            (<[1 := Action.set_libraries (Some [])
                      (Action.set_args (Some args')
                         (Action.mk DEPLOY_CONTRACT (Some "C") (Some "contract C {}")
                            (Some [Dependency.mk CONSTRUCTOR "L" (Some "lib") None None])
                            (Some "c-api") (Some [(Some "owner", VStr "0xabc")])
                            (Some INITED) None None (Some true) None None None))]>
               (heap constructor_args_state)) constructor_args_state)
    ∧ dict_get (Some "lib") args' = Some (VStr "0x2")
    ∧ dict_get (Some "owner") args' = Some (VStr "0xabc").
Proof.
  destruct (resolve_constructor_dependency (web3:=EchoWeb3) constructor_args_state 1
              (Action.mk DEPLOY_CONTRACT (Some "C") (Some "contract C {}")
                 (Some [Dependency.mk CONSTRUCTOR "L" (Some "lib") None None])
                 (Some "c-api") (Some [(Some "owner", VStr "0xabc")])
                 (Some INITED) None None (Some true) None None None)
              [(Some "owner", VStr "0xabc")]
              (Dependency.mk CONSTRUCTOR "L" (Some "lib") None None) [] 0
              (Action.mk DEPLOY_LIBRARY (Some "L") (Some "library L {}") None None None
                 (Some COMPLETED) (Some deployed_library) None (Some true) None None None)
              deployed_library eq_refl eq_refl eq_refl eq_refl eq_refl eq_refl)
    as (args' & Hrun & Hget & Hother & _).
  exists args'. split; [exact Hrun|]. split; [exact Hget|].
  rewrite Hother; [reflexivity | discriminate].
Defined.

(** X9 on a contract linked against two completed libraries: [libraries]
    becomes the mapping of the two names to the two addresses. *)
Lemma resolve_library_dependencies_witness :
  ∃ libs,
    dependencies (web3:=EchoWeb3) 2 linked_state =
      Ok ((true, None),
          set_heap (<[2 := Action.set_libraries (Some libs) linked_contract]>
                      (heap linked_state)) linked_state)
    ∧ dict_get (Some "DataUri") libs = Some (VStr "0x1")
    ∧ dict_get (Some "Metadata") libs = Some (VStr "0x2")
    ∧ dict_get (Some "Stale") libs = None.
Proof.
  destruct (resolve_library_dependencies (web3:=EchoWeb3) linked_state 2 linked_contract
              [Dependency.mk LIBRARY "DataUri" None None None;
               Dependency.mk LIBRARY "Metadata" None None None])
    as (libs & Hrun & Hget & Hkeys).
  - reflexivity.
  - discriminate.
  - reflexivity.
  - discriminate.
  - intros d [-> | [-> | []%elem_of_nil]%elem_of_cons]%elem_of_cons;
      (split; [reflexivity | by eexists]).
  - exists libs. split; [exact Hrun|].
    split; [apply (Hget (Dependency.mk LIBRARY "DataUri" None None None)), list_elem_of_here|].
    split.
    + apply (Hget (Dependency.mk LIBRARY "Metadata" None None None)).
      apply list_elem_of_further, list_elem_of_here.
    + destruct (dict_get (Some "Stale") libs) as [v|] eqn:Hstale; [|reflexivity].
      destruct (Hkeys (Some "Stale")) as (d & Hd & Heq); [by eexists|].
      apply elem_of_cons in Hd as [-> | Hd]; [discriminate|].
      apply elem_of_cons in Hd as [-> | Hd]; [discriminate|].
      by apply elem_of_nil in Hd.
Defined.

(** X10 on a method call whose own [api_name] is [other-api]: the
    transaction goes to [my-api], the API of the parent's contract. *)
Lemma method_call_goes_to_the_parent_contract_witness :
  ∃ flow s',
    deploy_step (web3:=EchoWeb3) (exe:=TestExecutor) 1 method_call_state = Ok (flow, s')
    ∧ calls (world s') =
        [] ++ [CallSubmitTransaction (Some "my-api") (Some "mint")
                 (Some [(Some "to", VStr "0xabc")])]
    ∧ (Action.contract <$> heap s' !! 1) = Some (Some deployed_impl)
    ∧ (flow = Promoted
       ∧ (Action.action_state <$> heap s' !! 1) = Some (Some COMPLETED)
       ∨ flow = Break
         ∧ (Action.action_state <$> heap s' !! 1) = Some (Some FAILED_METHOD_CALL)).
Proof.
  do 2 eexists. split; [vm_compute; reflexivity|].
  eapply (method_call_goes_to_the_parent_contract (web3:=EchoWeb3) (exe:=TestExecutor)
            method_call_state _ 1 method_call_action
            (Dependency.mk CONTRACT "MyNft" None None None) 0
            (Action.mk DEPLOY_CONTRACT (Some "MyNft") (Some "hello world") None
               (Some "my-api") None (Some COMPLETED) (Some deployed_impl) None
               (Some true) None None None)
            deployed_impl);
    first [reflexivity | discriminate | (vm_compute; reflexivity)].
Defined.

(** X11 on the resolution of a pending proxy: the completed
    implementation, the workflow and the executor are untouched. *)
Lemma resolver_touches_only_its_action_witness :
  ∃ r s1,
    dependencies (web3:=EchoWeb3) 1 proxy_state = Ok (r, s1)
    ∧ workflow s1 = workflow proxy_state
    ∧ world s1 = world proxy_state
    ∧ heap s1 !! 0 = heap proxy_state !! 0
    ∧ (Action.action_state <$> heap s1 !! 1) = Some (Some INITED).
Proof.
  do 2 eexists. split; [vm_compute; reflexivity|].
  match goal with
  | |- context [workflow ?s1 = _] =>
      destruct (resolver_touches_only_its_action (web3:=EchoWeb3) proxy_state s1 1
                  (true, None)) as (Hw & Hx & Hother & Hself)
  end.
  - vm_compute; reflexivity.
  - split; [exact Hw|]. split; [exact Hx|]. split; [by apply Hother|].
    vm_compute; reflexivity.
Defined.

(** X12 on the workflow with a [COMPLETED] pending action. *)
Lemma deploy_keeps_the_plan_witness :
  ∃ s',
    deploy (web3:=EchoWeb3) (exe:=TestExecutor) completed_pending_state = Ok (tt, s')
    ∧ Workflow.org (workflow s') = "MyOrg"
    ∧ (∃ n, Workflow.actions (workflow s') = drop n [0; 1])
    ∧ (∃ new, calls (world s') = [] ++ new)
    ∧ ∃ action', heap s' !! 1 = Some action'
                 ∧ Action.action_type action' = DEPLOY_LIBRARY.
Proof.
  eexists. split; [vm_compute; reflexivity|].
  match goal with
  | |- context [Workflow.org (workflow ?s')] =>
      destruct (deploy_keeps_the_plan (web3:=EchoWeb3) (exe:=TestExecutor)
                  completed_pending_state s')
        as (Hobj & _ & Horg & _ & _ & _ & _ & Hsuffix & Hcalls)
  end.
  - vm_compute; reflexivity.
  - split; [exact Horg|]. split; [exact Hsuffix|]. split; [exact Hcalls|].
    destruct (Hobj 1 (Action.set_code (Some "library B {}")
                        (Action.set_contract_name (Some "B") (new_action DEPLOY_LIBRARY)))
                eq_refl) as (action' & Ha' & Hty & _).
    by exists action'.
Defined.

(** X13 on a workflow whose pending action is [COMPLETED]: nothing
    happens but the clearing of its stale error message. *)
Lemma deploy_skips_completed_actions_witness :
  ∃ s',
    deploy (web3:=EchoWeb3) (exe:=TestExecutor) stale_state = Ok (tt, s')
    ∧ workflow s' = workflow stale_state
    ∧ world s' = world stale_state
    ∧ heap s' !! 0 = Some (library_at "DataUri" "0x1").
Proof.
  destruct (deploy_skips_completed_actions (web3:=EchoWeb3) (exe:=TestExecutor)
              stale_state) as (s' & Hrun & Hw & Hx & Hheap).
  - intros a ->%list_elem_of_singleton. eexists. split; reflexivity.
  - exists s'. split; [exact Hrun|]. split; [exact Hw|]. split; [exact Hx|].
    rewrite Hheap. reflexivity.
Defined.

(** X14 on a contract whose metadata is empty, with no [args]. *)
Lemma encode_calldata_without_params_witness :
  encode_calldata (web3:=EchoWeb3) deployed_library (Some "initialize") None =
    Ok [(Some "_logic", VStr "0x2"); (Some "_data", VStr "initialize")].
Proof.
  apply (encode_calldata_without_params (web3:=EchoWeb3) deployed_library
           (Some "initialize") None [] (Some [])); [reflexivity | reflexivity |].
  left. reflexivity.
Defined.

(** X15 on two parameters, the second of which has no argument. *)
Lemma project_args_in_parameter_order_witness :
  ∃ values,
    project_args (Some [(Some "symbol", VStr "MNT"); (Some "extra", VInt 1)])
      [VDict [(Some "name", VStr "symbol"); (Some "type", VStr "string")];
       VDict [(Some "name", VStr "name")]] = Ok values
    ∧ values !! 0 = Some (VStr "MNT")
    ∧ values !! 1 = Some VNone
    ∧ length values = 2.
Proof.
  destruct (project_args_in_parameter_order
              [(Some "symbol", VStr "MNT"); (Some "extra", VInt 1)]
              [VDict [(Some "name", VStr "symbol"); (Some "type", VStr "string")];
               VDict [(Some "name", VStr "name")]])
    as (values & Hproj & Hlen & Hnth).
  - repeat constructor; by do 2 eexists.
  - exists values. split; [exact Hproj|].
    split; [exact (Hnth 0 _ "symbol" eq_refl eq_refl)|].
    split; [exact (Hnth 1 _ "name" eq_refl eq_refl) | exact Hlen].
Defined.

(** X16 on a deployment record whose primary is the name asked for. *)
Lemma get_address_prefers_primary_witness :
  get_address (VDict sample_deployment) (Some "MyNft") = Ok (VStr "0xa").
Proof.
  apply (get_address_prefers_primary sample_deployment
           [(Some "name", VStr "MyNft"); (Some "address", VStr "0xa")] "MyNft");
    reflexivity.
Defined.

(** X17 on the same record: of the two entries named [Metadata] the first
    is taken; a name that no entry has gives [None]. *)
Lemma get_address_first_match_in_deployment_witness :
  get_address (VDict sample_deployment) (Some "Metadata") = Ok (VStr "0xc").
Proof.
  destruct (get_address_first_match_in_deployment sample_deployment "Metadata")
    as [Hfirst _].
  - right; right. eexists. split; [reflexivity | discriminate].
  - apply (Hfirst [VDict [(Some "name", VStr "DataUri"); (Some "address", VStr "0xb")]]
             [(Some "name", VStr "Metadata"); (Some "address", VStr "0xc")]
             [VDict [(Some "name", VStr "Metadata"); (Some "address", VStr "0xd")]]).
    + reflexivity.
    + repeat constructor. eexists. split; [reflexivity | discriminate].
    + reflexivity.
Defined.

(** X19 on a request that times out: the exception has no text and the
    proxy action is returned with [carry_on=True]. *)
Lemma simba_set_proxy_failure_witness :
  ∃ w',
    calls w' = [] ++ [CallSetProxy test_workflow_value (Some deployed_proxy)
                        (Some deployed_impl)]
    ∧ executor w' = 0
    ∧ handle_deploy_proxy
        (exe:=SimbaExecutor (platform:=TimeoutPlatform)
                (deploy_library (Executor:=TestExecutor)))
        failed_proxy_action test_workflow_value (mkWorld 0 []) =
        Ok ((failed_proxy_action, true), w').
Proof.
  exact (simba_set_proxy_failure (platform:=TimeoutPlatform)
           (deploy_library (Executor:=TestExecutor)) failed_proxy_action
           test_workflow_value (mkWorld 0 []) deployed_proxy deployed_impl
           (ExternalError "") eq_refl eq_refl eq_refl eq_refl).
Defined.

(** X20 on the second pass of the test suite: the two libraries are
    promoted and the pass stops on the contract, whose compile fails. *)
Lemma deploy_partitions_pending_actions_witness :
  ∃ s',
    deploy (web3:=EchoWeb3) (exe:=TestExecutor) second_pass_state = Ok (tt, s')
    ∧ ∃ done rest s_mid s_end,
        Workflow.actions (workflow second_pass_state) = done ++ rest
        ∧ promoted_prefix (web3:=EchoWeb3) (exe:=TestExecutor) second_pass_state done s_mid
        ∧ match rest with
          | [] => s_end = s_mid
          | a :: _ =>
              deploy_step (web3:=EchoWeb3) (exe:=TestExecutor) a s_mid = Ok (Break, s_end)
          end
        ∧ s' = set_workflow (Workflow.set_actions rest (workflow s_end)) s_end.
Proof.
  eexists. split; [vm_compute; reflexivity|].
  apply (deploy_partitions_pending_actions (web3:=EchoWeb3) (exe:=TestExecutor)
           second_pass_state).
  - apply (NoDup_seq 0 4).
  - intros a Ha. change (a ∈ [0; 1; 2; 3]) in Ha.
    repeat (apply elem_of_cons in Ha as [-> | Ha]);
      [| | | | by apply elem_of_nil in Ha];
      (eexists; split; [reflexivity | discriminate]).
  - vm_compute; reflexivity.
Defined.

(** X18 on an action that has a contract and is not in
    [FAILED_SET_PROXY]: each of the three handlers raises. *)
Lemma simba_executor_raises_type_error_witness :
  handle_deploy_contract
    (exe:=SimbaExecutor (platform:=TimeoutPlatform)
            (deploy_library (Executor:=TestExecutor)))
    seeded_action test_workflow_value (mkWorld 0 []) = Raise TypeError
  ∧ handle_deploy_proxy
      (exe:=SimbaExecutor (platform:=TimeoutPlatform)
              (deploy_library (Executor:=TestExecutor)))
      seeded_action test_workflow_value (mkWorld 0 []) = Raise TypeError
  ∧ handle_methodcall
      (exe:=SimbaExecutor (platform:=TimeoutPlatform)
              (deploy_library (Executor:=TestExecutor)))
      seeded_action test_workflow_value (mkWorld 0 []) = Raise TypeError.
Proof.
  destruct (simba_executor_raises_type_error (platform:=TimeoutPlatform)
              (deploy_library (Executor:=TestExecutor)) seeded_action
              test_workflow_value (mkWorld 0 [])) as (Hc & Hp & Hm).
  split; [exact Hc|]. split; [apply Hp; discriminate | apply Hm; by eexists].
Defined.
